(** * GRVT adapter: order ledger and user-data event channel

    A shallow embedding of the in-memory GRVT exchange adapter:

    - [GrvtRest]      (grvt_rest.py)      the order ledger, balance, positions;
    - [GrvtWebSocket] (grvt_websocket.py) the event queue, the subscriber list
                                          and the consumer coroutine;
    - [GrvtAdapter]   (grvt.py)           the operation surface built on both.

    Modelling conventions.

    - A finite [Decimal] is the rational it denotes ([Q]).  Python compares
      decimals numerically, so equalities between amounts are stated with
      [==] ([Qeq]).  Decimal subtraction and multiplication give the exact
      result rounded to the 28 significant digits of the default context
      (ties to even), which is what [dec_sub] and [dec_mul] compute.  The
      special values NaN and Infinity and the exponent limits of the context
      are outside the model.
    - A Python [dict] keeps its keys in insertion order, and the ledger is
      iterated in that order, so it is an association list whose assignment
      replaces an existing key in place and appends a new key at the end.
    - Readings of the system clock ([time.time()], [datetime.utcnow()]) are
      inputs of the operation that performs them.
    - Coroutines run without interleaving between two suspension points.  The
      bodies guarded by the ledger lock never suspend, so the lock is free at
      every operation boundary and is not represented.  The consumer coroutine
      is a step function: one step per queue pop and per subscriber call.
      [disconnect] suspends once, on the consumer task it has cancelled: its
      two halves are [disconnect_begin] and [disconnect_end], and
      [disconnect] is the call that nothing interleaves with.  Every other
      method runs to its end without suspending.
    - A subscriber returns or raises an [Exception]; subscribers that never
      return, and signals that are not [Exception]s (task cancellation), are
      outside the model. *)

From Stdlib Require Import List String Ascii Bool ZArith QArith Lia.
From Stdlib Require Import DecimalString DecimalZ.
From Stdlib Require Import Qabs Qround Qpower Lqa.
Import ListNotations.

Open Scope string_scope.
Open Scope list_scope.

(** ** Enumerations of the models module *)

(** Modelled from the spec: the [OrderSide] enumeration of the models module
    (buy/sell), which is imported by the adapter but not part of it. *)
Inductive OrderSide : Type := BUY | SELL.

(** Modelled from the spec: the [OrderType] enumeration of the models module:
    the limit family LIMIT, POST_ONLY, FOK, IOC, and market orders. *)
Inductive OrderType : Type := LIMIT | MARKET | POST_ONLY | FOK | IOC.

(** Modelled from the spec: the [OrderStatus] enumeration of the models
    module, status in {OPEN, CANCELED, FILLED, ...}. *)
Inductive OrderStatus : Type := OPEN | CANCELED | FILLED | REJECTED | EXPIRED.

Definition OrderStatus_eqb (a b : OrderStatus) : bool :=
  match a, b with
  | OPEN, OPEN | CANCELED, CANCELED | FILLED, FILLED
  | REJECTED, REJECTED | EXPIRED, EXPIRED => true
  | _, _ => false
  end.

Definition Decimal : Type := Q.

(** A [datetime], as microseconds since the epoch. *)
Definition datetime : Type := Z.

(** ** Python primitives *)

(** Truth value of an optional string: [None] and [""] are false. *)
Definition str_truthy (s : option string) : bool :=
  match s with
  | Some EmptyString => false
  | Some _ => true
  | None => false
  end.

(** [a or b] where [b] is a string. *)
Definition str_or (a : option string) (b : string) : string :=
  match a with
  | Some (String c s) => String c s
  | _ => b
  end.

(** [a or b] on optional strings. *)
Definition opt_str_or (a b : option string) : option string :=
  if str_truthy a then a else b.

(** [d or Decimal("0")]: a decimal is false when it is zero. *)
Definition decimal_or_zero (d : option Decimal) : Decimal :=
  match d with
  | Some q => if Qeq_bool q 0 then 0%Q else q
  | None => 0%Q
  end.

(** *** The decimal context *)

(** The number of decimal digits of a positive integer. *)
Fixpoint digits_upto (fuel : nat) (z : Z) : Z :=
  match fuel with
  | O => 0%Z
  | S f => if (z <=? 0)%Z then 0%Z else (1 + digits_upto f (z / 10))%Z
  end.

Definition digits (z : Z) : Z := digits_upto (S (Z.to_nat (Z.log2 z))) z.

(** The nearest integer, ties to the even one ([ROUND_HALF_EVEN]). *)
Definition round_half_even (x : Q) : Z :=
  let f := Qfloor x in
  match (x - inject_Z f ?= 1 # 2)%Q with
  | Lt => f
  | Gt => (f + 1)%Z
  | Eq => if Z.even f then f else (f + 1)%Z
  end.

(** The exponent [e] of the last digit kept when [q] is written with [p]
    significant digits: [10^(p-1) <= |q| / 10^e < 10^p]. *)
Definition exponent_for (p : Z) (q : Q) : Z :=
  let guess := (digits (Z.abs (Qnum q)) - digits (Zpos (Qden q)) - p)%Z in
  if Qle_bool (10 ^ (guess + p)) (Qabs q) then (guess + 1)%Z else guess.

(** [q] rounded to [p] significant digits. *)
Definition round_to (p : Z) (q : Q) : Q :=
  if Qeq_bool q 0 then 0%Q
  else
    let e := exponent_for p q in
    (inject_Z (round_half_even (q / 10 ^ e)) * 10 ^ e)%Q.

Arguments round_to : simpl never.

(** [getcontext().prec], never changed by the adapter. *)
Definition prec : Z := 28.

Definition round_ctx (q : Q) : Q := round_to prec q.

(** [a - b] and [a * b] on decimals. *)
Definition dec_sub (a b : Decimal) : Decimal := round_ctx (a - b).
Definition dec_mul (a b : Decimal) : Decimal := round_ctx (a * b).

(** [q] can be written with at most [p] significant digits. *)
Definition fits (p : Z) (q : Q) : Prop :=
  exists c e : Z, (Z.abs c < 10 ^ p)%Z /\ q == inject_Z c * 10 ^ e.

Definition fits_context (q : Q) : Prop := fits prec q.

(** [str(n)] for an integer, as used by the f-string of the order id. *)
Definition str_of_int (n : Z) : string :=
  NilEmpty.string_of_int (Z.to_int n).

(** ** Insertion-ordered dictionaries with string keys *)

Section Dict.
Context {V : Type}.

Definition dict : Type := list (string * V).

Fixpoint dict_get (k : string) (d : dict) : option V :=
  match d with
  | [] => None
  | (k', v) :: r => if String.eqb k k' then Some v else dict_get k r
  end.

(** [d[k] = v]: an existing key keeps its position. *)
Fixpoint dict_set (k : string) (v : V) (d : dict) : dict :=
  match d with
  | [] => [(k, v)]
  | (k', v') :: r =>
      if String.eqb k k' then (k, v) :: r else (k', v') :: dict_set k v r
  end.

Definition dict_keys (d : dict) : list string := map fst d.
Definition dict_values (d : dict) : list V := map snd d.
End Dict.

Arguments dict V : clear implicits.

(** ** Order records *)

(** The dictionary cached per order by [place_limit_order]; one field per
    key.  Every key is always present, so the defaults of [order.get] in
    [_to_order_data] are never used. *)
Module Entry.
Record t : Type := mk {
  id : string;
  client_id : option string;
  symbol : string;
  side : OrderSide;
  type : OrderType;
  price : Decimal;
  amount : Decimal;
  filled : Decimal;
  status : OrderStatus;
  timestamp : datetime;
  updated : datetime
}.

Definition set_status (s : OrderStatus) (e : t) : t :=
  mk (id e) (client_id e) (symbol e) (side e) (type e) (price e) (amount e)
     (filled e) s (timestamp e) (updated e).

Definition set_updated (u : datetime) (e : t) : t :=
  mk (id e) (client_id e) (symbol e) (side e) (type e) (price e) (amount e)
     (filled e) (status e) (timestamp e) u.
End Entry.

(** [OrderData] of the models module, restricted to the fields that
    [_to_order_data] computes ([fee], [trades], [params] and [raw_data] are
    constants). *)
Module OrderData.
Record t : Type := mk {
  id : string;
  client_id : option string;
  symbol : string;
  side : OrderSide;
  type : OrderType;
  amount : Decimal;
  price : option Decimal;
  filled : Decimal;
  remaining : Decimal;
  cost : Decimal;
  average : option Decimal;
  status : OrderStatus;
  timestamp : datetime;
  updated : option datetime
}.
End OrderData.

Module BalanceData.
Record t : Type := mk {
  currency : string;
  free : Decimal;
  used : Decimal;
  total : Decimal;
  usd_value : Decimal;
  timestamp : datetime
}.
End BalanceData.

(** Modelled from the spec: the [PositionSide] enumeration of the models
    module (side is LONG or SHORT). *)
Inductive PositionSide : Type := LONG | SHORT.

(** Modelled from the spec: the [MarginMode] enumeration of the models
    module; the adapter only ever uses [CROSS]. *)
Inductive MarginMode : Type := CROSS | ISOLATED.

(** [PositionData] of the models module, restricted to the fields that
    [get_position] sets to something other than [None]. *)
Module PositionData.
Record t : Type := mk {
  symbol : string;
  side : PositionSide;
  size : Decimal;
  entry_price : Decimal;
  unrealized_pnl : Decimal;
  realized_pnl : Decimal;
  leverage : Z;
  margin_mode : MarginMode;
  margin : Decimal;
  timestamp : datetime
}.
End PositionData.

(** ** grvt_rest.py *)

Module GrvtRest.
Record t : Type := mk {
  _orders : dict Entry.t;
  _balance : Decimal;
  _position_size : dict Decimal
}.

Definition with_orders (o : dict Entry.t) (r : t) : t :=
  mk o (_balance r) (_position_size r).

(** [__init__] *)
Definition init : t := mk [] 100000%Q [].

Definition _to_order_data (order : Entry.t) : OrderData.t :=
  OrderData.mk
    (Entry.id order)
    (Entry.client_id order)
    (Entry.symbol order)
    (Entry.side order)
    (Entry.type order)
    (Entry.amount order)
    (Some (Entry.price order))
    (Entry.filled order)
    (dec_sub (Entry.amount order) (Entry.filled order))
    (dec_mul (decimal_or_zero (Some (Entry.price order))) (Entry.amount order))
    (Some (Entry.price order))
    (Entry.status order)
    (Entry.timestamp order)
    (Some (Entry.updated order)).

(** The id chosen by [place_limit_order]; [now_ms] is
    [int(time.time() * 1000)]. *)
Definition order_id_for (now_ms : Z) (client_order_id : option string)
  : string :=
  str_or client_order_id ("grvt_" ++ str_of_int now_ms).

Definition new_entry (now_ms : Z) (utcnow : datetime) (symbol : string)
    (side : OrderSide) (price size : Decimal)
    (client_order_id : option string) : Entry.t :=
  Entry.mk (order_id_for now_ms client_order_id) client_order_id symbol side
    LIMIT price size 0%Q OPEN utcnow utcnow.

Definition place_limit_order (now_ms : Z) (utcnow : datetime)
    (symbol : string) (side : OrderSide) (price size : Decimal)
    (client_order_id : option string) (r : t) : OrderData.t * t :=
  let order_id := order_id_for now_ms client_order_id in
  let entry := new_entry now_ms utcnow symbol side price size client_order_id in
  let r' := with_orders (dict_set order_id entry (_orders r)) r in
  (_to_order_data entry, r').

Definition cancel_order (utcnow : datetime) (symbol : string)
    (order_id client_order_id : option string) (r : t)
  : option OrderData.t * t :=
  match opt_str_or order_id client_order_id with
  | Some (String c s) =>
      let target_id := String c s in
      match dict_get target_id (_orders r) with
      | None => (None, r)
      | Some order =>
          let order' :=
            Entry.set_updated utcnow (Entry.set_status CANCELED order) in
          (Some (_to_order_data order'),
           with_orders (dict_set target_id order' (_orders r)) r)
      end
  | _ => (None, r)
  end.

(** The filter of [get_open_orders]:
    [order["status"] == OPEN and (not symbol or order["symbol"] == symbol)]. *)
Definition is_open_for (symbol : option string) (order : Entry.t) : bool :=
  OrderStatus_eqb (Entry.status order) OPEN
  && (negb (str_truthy symbol)
      || match symbol with
         | Some s => String.eqb (Entry.symbol order) s
         | None => false
         end).

Definition get_open_orders (symbol : option string) (r : t)
  : list OrderData.t :=
  map _to_order_data (filter (is_open_for symbol) (dict_values (_orders r))).

Definition get_balance (utcnow : datetime) (r : t) : BalanceData.t :=
  BalanceData.mk "USDC" (_balance r) 0%Q (_balance r) (_balance r) utcnow.

(** [self._position_size.get(symbol, Decimal("0"))], then the side from the
    sign and the size as an absolute value. *)
Definition get_position (utcnow : datetime) (symbol : string) (r : t)
  : PositionData.t :=
  let size :=
    match dict_get symbol (_position_size r) with
    | Some s => s
    | None => 0%Q
    end in
  let side := if Qle_bool 0 size then LONG else SHORT in
  PositionData.mk symbol side (Qabs size) 0%Q 0%Q 0%Q 1%Z CROSS 0%Q utcnow.
End GrvtRest.

(** ** grvt_websocket.py *)

(** How a subscriber call ends: it returns, or it raises an [Exception]. *)
Inductive Outcome : Type := Returned | Raised.

Module GrvtWebSocket.
Section WithEvent.
Variable Event : Type.

(** A subscriber: a name by which its calls are observed, and its
    behaviour on each event. *)
Record Callback : Type := mkCallback {
  cb_name : nat;
  cb_call : Event -> Outcome
}.

(** One observed subscriber call. *)
Definition Call : Type := (nat * Event * Outcome)%type.

(** The consumer task running [_consume]: suspended at the head of the
    [while] loop (on [queue.get]), inside the [for] loop with the callbacks
    still to be called, cancelled by [task.cancel()] but not yet resumed to
    end, or done. *)
Inductive Task : Type :=
| Waiting
| Dispatching (data : Event) (pending : list Callback)
| Cancelling
| Finished.

Definition done (k : Task) : bool :=
  match k with Finished => true | _ => false end.

(** The fields of the class, and two logs that make the effects of the
    consumer observable: [invoked], the subscriber calls made so far, and
    [logged], the exceptions caught from subscribers and reported through
    [logger.error]. *)
Record t : Type := mk {
  _callbacks : list Callback;
  _connected : bool;
  _queue : list Event;
  _consumer_task : option Task;
  invoked : list Call;
  logged : list (nat * Event)
}.

(** [__init__] *)
Definition init : t := mk [] false [] None [] [].

Definition connect (ws : t) : t :=
  mk (_callbacks ws) true (_queue ws)
     (match _consumer_task ws with
      | None => Some Waiting
      | Some k => if done k then Some Waiting else Some k
      end)
     (invoked ws) (logged ws).

(** A call of [disconnect] that nothing interleaves with: see
    [disconnect_begin] and [disconnect_end] for its two halves. *)
Definition disconnect (ws : t) : t :=
  mk (_callbacks ws) false (_queue ws) None (invoked ws) (logged ws).

(** [disconnect] up to its suspension at [await self._consumer_task]: the
    flag is cleared and the task, when there is one that is not done, is
    cancelled. *)
Definition disconnect_begin (ws : t) : t :=
  mk (_callbacks ws) false (_queue ws)
     (match _consumer_task ws with
      | None => None
      | Some k => if done k then Some k else Some Cancelling
      end)
     (invoked ws) (logged ws).

(** [disconnect] from where it resumes: once the awaited task is done (or
    when there was none) the task is forgotten.  [None]: the task is not
    done yet and [disconnect] stays suspended. *)
Definition disconnect_end (ws : t) : option t :=
  match _consumer_task ws with
  | Some k =>
      if done k
      then Some (mk (_callbacks ws) (_connected ws) (_queue ws) None
                    (invoked ws) (logged ws))
      else None
  | None =>
      Some (mk (_callbacks ws) (_connected ws) (_queue ws) None (invoked ws)
               (logged ws))
  end.

Definition subscribe_user_stream (callback : Callback) (ws : t) : t :=
  mk (_callbacks ws ++ [callback]) (_connected ws) (_queue ws)
     (_consumer_task ws) (invoked ws) (logged ws).

Definition clear_callbacks (ws : t) : t :=
  mk [] (_connected ws) (_queue ws) (_consumer_task ws) (invoked ws)
     (logged ws).

Definition send_user_event (data : Event) (ws : t) : t :=
  let ws1 := if negb (_connected ws) then connect ws else ws in
  mk (_callbacks ws1) (_connected ws1) (_queue ws1 ++ [data])
     (_consumer_task ws1) (invoked ws1) (logged ws1).

(** One step of [_consume].  [None]: there is no live consumer, or it is
    suspended on an empty queue. *)
Definition consume_step (ws : t) : option t :=
  match _consumer_task ws with
  | Some Waiting =>
      if _connected ws then
        match _queue ws with
        | [] => None
        | data :: q =>
            Some (mk (_callbacks ws) (_connected ws) q
                     (Some (Dispatching data (_callbacks ws))) (invoked ws)
                     (logged ws))
        end
      else
        Some (mk (_callbacks ws) (_connected ws) (_queue ws) (Some Finished)
                 (invoked ws) (logged ws))
  | Some (Dispatching data (callback :: pending)) =>
      let called := invoked ws ++ [(cb_name callback, data,
                                    cb_call callback data)] in
      match cb_call callback data with
      | Returned =>
          Some (mk (_callbacks ws) (_connected ws) (_queue ws)
                   (Some (Dispatching data pending)) called (logged ws))
      | Raised =>
          (* except Exception: logger.error(...), then the next callback *)
          Some (mk (_callbacks ws) (_connected ws) (_queue ws)
                   (Some (Dispatching data pending)) called
                   (logged ws ++ [(cb_name callback, data)]))
      end
  | Some (Dispatching _ []) =>
      Some (mk (_callbacks ws) (_connected ws) (_queue ws) (Some Waiting)
               (invoked ws) (logged ws))
  | Some Cancelling =>
      (* except asyncio.CancelledError: pass *)
      Some (mk (_callbacks ws) (_connected ws) (_queue ws) (Some Finished)
               (invoked ws) (logged ws))
  | Some Finished => None
  | None => None
  end.

(** [n] consecutive steps of the consumer. *)
Fixpoint run_consumer (n : nat) (ws : t) : option t :=
  match n with
  | O => Some ws
  | S k =>
      match consume_step ws with
      | Some ws' => run_consumer k ws'
      | None => None
      end
  end.

(** The calls that delivering [data] to [cbs] makes, in order. *)
Definition fan_out (cbs : list Callback) (data : Event) : list Call :=
  map (fun cb => (cb_name cb, data, cb_call cb data)) cbs.

(** The exceptions that delivering [data] to [cbs] raises, in order. *)
Definition failures (cbs : list Callback) (data : Event)
  : list (nat * Event) :=
  map (fun cb => (cb_name cb, data))
    (filter (fun cb => match cb_call cb data with
                       | Raised => true
                       | Returned => false
                       end) cbs).

(** Registering subscribers one after the other. *)
Definition subscribe_all (cbs : list Callback) (ws : t) : t :=
  fold_left (fun acc cb => subscribe_user_stream cb acc) cbs ws.

(** A disconnected socket has no consumer task.  This holds initially and
    after every method that ran to its end; it does not hold while a
    [disconnect] is suspended on the task it cancelled. *)
Definition consistent (ws : t) : Prop :=
  _connected ws = false -> _consumer_task ws = None.
End WithEvent.

Arguments mkCallback {Event}.
Arguments cb_name {Event}.
Arguments cb_call {Event}.
Arguments Waiting {Event}.
Arguments Dispatching {Event}.
Arguments Cancelling {Event}.
Arguments Finished {Event}.
Arguments done {Event}.
Arguments mk {Event}.
Arguments _callbacks {Event}.
Arguments _connected {Event}.
Arguments _queue {Event}.
Arguments _consumer_task {Event}.
Arguments invoked {Event}.
Arguments logged {Event}.
Arguments init {Event}.
Arguments connect {Event}.
Arguments disconnect {Event}.
Arguments disconnect_begin {Event}.
Arguments disconnect_end {Event}.
Arguments subscribe_user_stream {Event}.
Arguments clear_callbacks {Event}.
Arguments send_user_event {Event}.
Arguments consume_step {Event}.
Arguments run_consumer {Event}.
Arguments fan_out {Event}.
Arguments failures {Event}.
Arguments subscribe_all {Event}.
Arguments consistent {Event}.
End GrvtWebSocket.

(** ** grvt.py *)

Module GrvtAdapter.
Module WS := GrvtWebSocket.

Record t : Type := mk {
  rest : GrvtRest.t;
  websocket : WS.t OrderData.t;
  _order_callbacks : list (WS.Callback OrderData.t)
}.

Definition init : t := mk GrvtRest.init WS.init [].

(** The two [ValueError]s raised by the adapter, named as in the
    specification's error taxonomy. *)
Inductive Error : Type :=
| UnsupportedOrderType
| OrderNotFound (order_id : string).

(** Adapter methods: state passing with exceptions.  A raised error keeps
    the state reached when it is raised. *)
Definition M (A : Type) : Type := t -> (Error + A) * t.

Definition ret {A} (x : A) : M A := fun a => (inr x, a).
Definition raise {A} (e : Error) : M A := fun a => (inl e, a).
Definition bind {A B} (m : M A) (f : A -> M B) : M B :=
  fun a =>
    match m a with
    | (inr x, a') => f x a'
    | (inl e, a') => (inl e, a')
    end.

Notation "x <- m ;; k" := (bind m (fun x => k))
  (at level 61, m at next level, right associativity).
Notation "m ;;; k" := (bind m (fun _ => k))
  (at level 61, right associativity).

(** A call into [self.rest]. *)
Definition in_rest {A} (f : GrvtRest.t -> A * GrvtRest.t) : M A :=
  fun a =>
    let (x, r) := f (rest a) in
    (inr x, mk r (websocket a) (_order_callbacks a)).

(** A call into [self.websocket]. *)
Definition in_websocket (f : WS.t OrderData.t -> WS.t OrderData.t) : M unit :=
  fun a => (inr tt, mk (rest a) (f (websocket a)) (_order_callbacks a)).

Definition _emit_user_event (order : OrderData.t) : M unit :=
  in_websocket (WS.send_user_event order).

Definition limit_family (order_type : OrderType) : bool :=
  match order_type with
  | LIMIT | POST_ONLY | FOK | IOC => true
  | MARKET => false
  end.

(** [params.get("client_order_id") if params else None] *)
Definition params_client_order_id (params : option (dict string))
  : option string :=
  match params with
  | Some (kv :: more) => dict_get "client_order_id" (kv :: more)
  | _ => None
  end.

Definition create_order (now_ms : Z) (utcnow : datetime) (symbol : string)
    (side : OrderSide) (order_type : OrderType) (amount : Decimal)
    (price : option Decimal) (params : option (dict string))
  : M OrderData.t :=
  if negb (limit_family order_type) then raise UnsupportedOrderType
  else
    order <- in_rest (GrvtRest.place_limit_order now_ms utcnow symbol side
                        (decimal_or_zero price) amount
                        (params_client_order_id params)) ;;
    _emit_user_event order ;;;
    ret order.

Definition cancel_order (utcnow : datetime) (order_id symbol : string)
  : M OrderData.t :=
  order <- in_rest (GrvtRest.cancel_order utcnow symbol (Some order_id) None) ;;
  match order with
  | Some o => _emit_user_event o ;;; ret o
  | None => raise (OrderNotFound order_id)
  end.

(** The loop of [cancel_all_orders]; [utcnow i] is the clock reading of
    its [i]-th iteration. *)
Fixpoint cancel_each (utcnow : nat -> datetime) (open_orders : list OrderData.t)
  : M (list OrderData.t) :=
  match open_orders with
  | [] => ret []
  | order :: more =>
      updated <- in_rest (GrvtRest.cancel_order (utcnow O)
                            (OrderData.symbol order)
                            (Some (OrderData.id order)) None) ;;
      match updated with
      | Some u =>
          _emit_user_event u ;;;
          cancelled <- cancel_each (fun i => utcnow (S i)) more ;;
          ret (u :: cancelled)
      | None => cancel_each (fun i => utcnow (S i)) more
      end
  end.

Definition cancel_all_orders (utcnow : nat -> datetime)
    (symbol : option string) : M (list OrderData.t) :=
  open_orders <- in_rest (fun r => (GrvtRest.get_open_orders symbol r, r)) ;;
  cancel_each utcnow open_orders.

Definition get_balances (utcnow : datetime) (a : t) : list BalanceData.t :=
  [GrvtRest.get_balance utcnow (rest a)].

Definition subscribe_user_data (callback : WS.Callback OrderData.t) (a : t) : t :=
  mk (rest a) (WS.subscribe_user_stream callback (websocket a))
     (_order_callbacks a ++ [callback]).

Definition unsubscribe (a : t) : t :=
  mk (rest a) (WS.clear_callbacks (websocket a)) [].

(** *** Sequences of trading operations *)

Inductive Op : Type :=
| Place (now_ms : Z) (utcnow : datetime) (symbol : string) (side : OrderSide)
    (order_type : OrderType) (amount : Decimal) (price : option Decimal)
    (params : option (dict string))
| Cancel (utcnow : datetime) (order_id symbol : string)
| CancelAll (utcnow : nat -> datetime) (symbol : option string).

(** One operation, with the orders it returns. *)
Definition run (op : Op) : M (list OrderData.t) :=
  match op with
  | Place now_ms utcnow symbol side order_type amount price params =>
      order <- create_order now_ms utcnow symbol side order_type amount price
                 params ;;
      ret [order]
  | Cancel utcnow order_id symbol =>
      order <- cancel_order utcnow order_id symbol ;;
      ret [order]
  | CancelAll utcnow symbol => cancel_all_orders utcnow symbol
  end.

(** The state after one operation, whether it returned or raised. *)
Definition exec (op : Op) (a : t) : t := snd (run op a).

Definition exec_all (ops : list Op) (a : t) : t :=
  fold_left (fun s op => exec op s) ops a.

(** A sequence of operations, with the outcome of each. *)
Fixpoint run_all (ops : list Op) (a : t)
  : list (Error + list OrderData.t) * t :=
  match ops with
  | [] => ([], a)
  | op :: more =>
      let (reply, a1) := run op a in
      let (replies, a2) := run_all more a1 in
      (reply :: replies, a2)
  end.

(** The ledger key an operation assigns, if it is a placement that is
    accepted. *)
Definition placed_id (op : Op) : option string :=
  match op with
  | Place now_ms _ _ _ order_type _ _ params =>
      if limit_family order_type
      then Some (GrvtRest.order_id_for now_ms (params_client_order_id params))
      else None
  | _ => None
  end.

(** *** Queries *)

Definition get_open_orders (symbol : option string) : M (list OrderData.t) :=
  in_rest (fun r => (GrvtRest.get_open_orders symbol r, r)).

(** The open orders of the symbol first, then the whole cache. *)
Definition get_order (order_id symbol : string) : M OrderData.t :=
  open_orders <- in_rest (fun r =>
                   (GrvtRest.get_open_orders (Some symbol) r, r)) ;;
  match find (fun order => String.eqb (OrderData.id order) order_id)
          open_orders with
  | Some order => ret order
  | None =>
      fun a =>
        match dict_get order_id (GrvtRest._orders (rest a)) with
        | Some cached => ret (GrvtRest._to_order_data cached) a
        | None => raise (OrderNotFound order_id) a
        end
  end.

(** [if symbol and item.get("symbol") != symbol: continue] *)
Definition in_history (symbol : option string) (item : Entry.t) : bool :=
  negb (str_truthy symbol
        && negb match symbol with
                | Some s => String.eqb (Entry.symbol item) s
                | None => false
                end).

(** [since] and [limit] are accepted and not used. *)
Definition get_order_history (symbol : option string)
    (since : option datetime) (limit : option Z) (a : t) : list OrderData.t :=
  map GrvtRest._to_order_data
    (filter (in_history symbol) (dict_values (GrvtRest._orders (rest a)))).

(** The loop of [get_positions]; [utcnow i] is the clock reading of its
    [i]-th iteration. *)
Fixpoint positions_of (utcnow : nat -> datetime) (symbols : list string)
    (r : GrvtRest.t) : list PositionData.t :=
  match symbols with
  | [] => []
  | sym :: more =>
      GrvtRest.get_position (utcnow O) sym r
      :: positions_of (fun i => utcnow (S i)) more r
  end.

(** [config_symbol] is [Some s] when the configuration has an attribute
    [symbol] (of value [s]), [None] when it has none. *)
Definition get_positions (config_symbol : option string)
    (utcnow : nat -> datetime) (symbols : option (list string)) (a : t)
  : list PositionData.t :=
  let symbols :=
    match symbols with
    | Some (s :: more) => s :: more
    | _ => []
    end in
  let symbols :=
    match symbols, config_symbol with
    | [], Some s => [s]
    | _, _ => symbols
    end in
  positions_of utcnow symbols (rest a).

(** *** Everything that can happen to an adapter *)

Inductive Action : Type :=
| Trade (op : Op)
| Subscribe (callback : WS.Callback OrderData.t)
| Unsubscribe
| Deliver.

(** [Deliver] is one step of the consumer, when it can make one. *)
Definition perform (act : Action) (a : t) : t :=
  match act with
  | Trade op => exec op a
  | Subscribe callback => subscribe_user_data callback a
  | Unsubscribe => unsubscribe a
  | Deliver =>
      match WS.consume_step (websocket a) with
      | Some ws => mk (rest a) ws (_order_callbacks a)
      | None => a
      end
  end.

Definition perform_all (acts : list Action) (a : t) : t :=
  fold_left (fun s act => perform act s) acts a.
End GrvtAdapter.

(** ** Invariants and specification vocabulary *)

(** The ledger as the code maintains it: every key is a non-empty string and
    is the ["id"] of its record.  Keys of a dictionary are distinct. *)
Definition ledger_ok (d : dict Entry.t) : Prop :=
  NoDup (dict_keys d)
  /\ forall k e, In (k, e) d -> k <> "" /\ Entry.id e = k.

(** The record that [cancel_order] leaves for [e] when the clock reads [ts]. *)
Definition canceled (ts : datetime) (e : Entry.t) : Entry.t :=
  Entry.set_updated ts (Entry.set_status CANCELED e).

(** The orders that [cancel_all(symbol)] is meant to cancel: open, and of the
    given symbol when one is given (an empty symbol counts as not given). *)
Definition targeted (symbol : option string) (e : Entry.t) : Prop :=
  Entry.status e = OPEN
  /\ forall s, symbol = Some s -> s <> "" -> Entry.symbol e = s.

(** The entries of a sweep after cancellation, the [i]-th at [utcnow i]. *)
Fixpoint stamped (utcnow : nat -> datetime) (es : list Entry.t) : list Entry.t :=
  match es with
  | [] => []
  | e :: more => canceled (utcnow O) e :: stamped (fun i => utcnow (S i)) more
  end.

(** Storing records under their own ids. *)
Definition store_all (es : list Entry.t) (d : dict Entry.t) : dict Entry.t :=
  fold_left (fun acc e => dict_set (Entry.id e) e acc) es d.

(** Emitting a list of events in order. *)
Definition emit_all {Event} (events : list Event) (ws : GrvtWebSocket.t Event)
  : GrvtWebSocket.t Event :=
  fold_left (fun acc ev => GrvtWebSocket.send_user_event ev acc) events ws.

(** The orders of a reply, none when the operation raised. *)
Definition reply_orders (reply : GrvtAdapter.Error + list OrderData.t)
  : list OrderData.t :=
  match reply with
  | inr orders => orders
  | inl _ => []
  end.

(** The snapshot taken by [cancel_all_orders]. *)
Definition open_entries (symbol : option string) (a : GrvtAdapter.t)
  : list Entry.t :=
  filter (GrvtRest.is_open_for symbol)
    (dict_values (GrvtRest._orders (GrvtAdapter.rest a))).

(** The record under [k], once not OPEN, is still there and not OPEN. *)
Definition stays_closed (k : string) (r r' : GrvtRest.t) : Prop :=
  forall e,
    dict_get k (GrvtRest._orders r) = Some e ->
    Entry.status e <> OPEN ->
    exists e',
      dict_get k (GrvtRest._orders r') = Some e' /\ Entry.status e' <> OPEN.

(** The socket is at rest: nothing queued, and the consumer either waits or
    was never started (or was stopped by [disconnect]). *)
Definition idle {Event} (ws : GrvtWebSocket.t Event) : Prop :=
  GrvtWebSocket._queue ws = []
  /\ ((GrvtWebSocket._connected ws = true
       /\ GrvtWebSocket._consumer_task ws = Some GrvtWebSocket.Waiting)
      \/ (GrvtWebSocket._connected ws = false
          /\ GrvtWebSocket._consumer_task ws = None)).

(** What the simulated backend ever stores for an order. *)
Definition never_filled (e : Entry.t) : Prop :=
  Entry.filled e = 0%Q
  /\ Entry.type e = LIMIT
  /\ (Entry.status e = OPEN \/ Entry.status e = CANCELED).

(** The subscriber lists as a trading operation leaves them. *)
Definition same_subscribers (a a' : GrvtAdapter.t) : Prop :=
  GrvtAdapter._order_callbacks a' = GrvtAdapter._order_callbacks a
  /\ GrvtWebSocket._callbacks (GrvtAdapter.websocket a')
     = GrvtWebSocket._callbacks (GrvtAdapter.websocket a).

(** The ids that a sequence of operations adds to a ledger whose ids are
    [known]: those of its accepted placements, in order, each the first time
    it appears. *)
Fixpoint ids_added (known : list string) (ops : list GrvtAdapter.Op)
  : list string :=
  match ops with
  | [] => []
  | op :: more =>
      match GrvtAdapter.placed_id op with
      | Some k =>
          if existsb (String.eqb k) known then ids_added known more
          else k :: ids_added (known ++ [k]) more
      | None => ids_added known more
      end
  end.

(** ** A sample session *)

Definition with_client_order_id (cid : string) : option (dict string) :=
  Some [("client_order_id", cid)].

(** Two placements, the first under the client's id ["a"], then its
    cancellation. *)
Definition session : list GrvtAdapter.Op :=
  [ GrvtAdapter.Place 1700000000000 1700000000000000%Z "BTC-PERP" BUY LIMIT 1
      (Some 50000%Q) (with_client_order_id "a");
    GrvtAdapter.Place 1700000000001 1700000000001000%Z "ETH-PERP" SELL IOC 2
      (Some 3000%Q) None;
    GrvtAdapter.Cancel 1700000000002000%Z "a" "BTC-PERP" ].

Definition after_session : GrvtAdapter.t :=
  GrvtAdapter.exec_all session GrvtAdapter.init.

(** Three subscribers on string events; the second one always raises. *)
Definition subscriber_A : GrvtWebSocket.Callback string :=
  GrvtWebSocket.mkCallback 1%nat (fun _ => Returned).
Definition subscriber_B : GrvtWebSocket.Callback string :=
  GrvtWebSocket.mkCallback 2%nat (fun _ => Raised).
Definition subscriber_C : GrvtWebSocket.Callback string :=
  GrvtWebSocket.mkCallback 3%nat (fun _ => Returned).

(** A socket that was connected, has lost its connection with one event
    still queued, and has two subscribers. *)
Definition dropped_socket : GrvtWebSocket.t string :=
  GrvtWebSocket.disconnect
    (GrvtWebSocket.send_user_event "E0"
       (GrvtWebSocket.subscribe_all [subscriber_A; subscriber_B]
          (GrvtWebSocket.connect GrvtWebSocket.init))).

(** * Properties *)

(** ** Dictionaries *)

Section DictFacts.
Context {V : Type}.
Implicit Types (d : dict V) (k : string) (v : V).

Lemma dict_get_set_same k v d : dict_get k (dict_set k v d) = Some v.
Proof.
  induction d as [|[k' v'] r IH]; simpl.
  - now rewrite String.eqb_refl.
  - destruct (String.eqb k k') eqn:E; simpl.
    + now rewrite String.eqb_refl.
    + now rewrite E.
Qed.

Lemma dict_get_set_other k k' v d :
  k' <> k -> dict_get k' (dict_set k v d) = dict_get k' d.
Proof.
  intros N. induction d as [|[k0 v0] r IH]; simpl.
  - apply String.eqb_neq in N. now rewrite N.
  - destruct (String.eqb k k0) eqn:E; simpl.
    + apply String.eqb_eq in E. subst k0.
      apply String.eqb_neq in N. now rewrite N.
    + now rewrite IH.
Qed.

Lemma dict_get_In k v d : dict_get k d = Some v -> In (k, v) d.
Proof.
  induction d as [|[k0 v0] r IH]; simpl; [discriminate|].
  destruct (String.eqb k k0) eqn:E.
  - apply String.eqb_eq in E. intros [= ->]. left. now subst.
  - intros H. right. now apply IH.
Qed.

Lemma dict_get_None k d : dict_get k d = None <-> ~ In k (dict_keys d).
Proof.
  induction d as [|[k0 v0] r IH]; simpl.
  - tauto.
  - destruct (String.eqb k k0) eqn:E.
    + apply String.eqb_eq in E. subst. split; [discriminate|]. tauto.
    + apply String.eqb_neq in E. rewrite IH. split.
      * intros H [F|F]; [now apply E|now apply H].
      * tauto.
Qed.

Lemma dict_get_Some_key k v d : dict_get k d = Some v -> In k (dict_keys d).
Proof.
  intros H. apply dict_get_In in H.
  unfold dict_keys. apply in_map_iff. now exists (k, v).
Qed.

Lemma In_dict_get k v d :
  NoDup (dict_keys d) -> In (k, v) d -> dict_get k d = Some v.
Proof.
  induction d as [|[k0 v0] r IH]; simpl; [tauto|].
  intros ND [E|I].
  - injection E as -> ->. now rewrite String.eqb_refl.
  - inversion ND as [|? ? NI ND']; subst.
    destruct (String.eqb k k0) eqn:E.
    + apply String.eqb_eq in E. subst. exfalso. apply NI.
      unfold dict_keys. apply in_map_iff. now exists (k0, v).
    + now apply IH.
Qed.

(** Assigning a new key appends it. *)
Lemma dict_set_fresh k v d :
  dict_get k d = None -> dict_set k v d = d ++ [(k, v)].
Proof.
  induction d as [|[k0 v0] r IH]; simpl; [reflexivity|].
  destruct (String.eqb k k0); [discriminate|].
  intros H. now rewrite IH.
Qed.

(** Assigning an existing key keeps the keys and their order. *)
Lemma dict_keys_set_present k v d :
  In k (dict_keys d) -> dict_keys (dict_set k v d) = dict_keys d.
Proof.
  induction d as [|[k0 v0] r IH]; simpl; [tauto|].
  destruct (String.eqb k k0) eqn:E; simpl.
  - apply String.eqb_eq in E. now subst.
  - apply String.eqb_neq in E. intros [F|I]; [now subst|].
    now rewrite IH.
Qed.
End DictFacts.

(** ** The ledger invariant *)

Lemma ledger_ok_nil : ledger_ok [].
Proof.
  split; [constructor|]. intros k e [].
Qed.

Lemma ledger_ok_get k e d :
  ledger_ok d -> dict_get k d = Some e -> k <> "" /\ Entry.id e = k.
Proof.
  intros [_ H] G. apply H. now apply dict_get_In.
Qed.

Lemma In_dict_set (k k0 : string) (e e0 : Entry.t) d :
  In (k0, e0) (dict_set k e d) -> (k0, e0) = (k, e) \/ In (k0, e0) d.
Proof.
  induction d as [|[k1 e1] r IH]; simpl.
  - intros [H|[]]. now left.
  - destruct (String.eqb k k1); simpl.
    + intros [H|H]; [now left|now right; right].
    + intros [H|H]; [now right; left|].
      destruct (IH H); [now left|now right; right].
Qed.

Lemma dict_keys_set (k : string) (e : Entry.t) d :
  dict_keys (dict_set k e d)
  = match dict_get k d with
    | Some _ => dict_keys d
    | None => dict_keys d ++ [k]
    end.
Proof.
  destruct (dict_get k d) eqn:G.
  - apply dict_keys_set_present. eapply dict_get_Some_key; eauto.
  - rewrite dict_set_fresh by assumption.
    unfold dict_keys. now rewrite map_app.
Qed.

Lemma ledger_ok_set k e d :
  ledger_ok d -> k <> "" -> Entry.id e = k -> ledger_ok (dict_set k e d).
Proof.
  intros [ND H] Nk Ek. split.
  - rewrite dict_keys_set. destruct (dict_get k d) eqn:G; [assumption|].
    apply dict_get_None in G.
    apply NoDup_app; [assumption|repeat constructor; simpl; tauto|].
    intros x Ix [<-|[]]. tauto.
  - intros k0 e0 I. apply In_dict_set in I. destruct I as [E|I].
    + injection E as -> ->. tauto.
    + now apply H.
Qed.

Lemma str_or_nonempty a b : b <> "" -> str_or a b <> "".
Proof.
  destruct a as [[|c s]|]; simpl; try tauto. discriminate.
Qed.

Lemma order_id_for_nonempty now_ms cid : GrvtRest.order_id_for now_ms cid <> "".
Proof.
  apply str_or_nonempty. discriminate.
Qed.

(** ** Decimals *)

Lemma digits_upto_nonpos fuel z : (z <= 0)%Z -> digits_upto fuel z = 0%Z.
Proof.
  intros H. destruct fuel; simpl; [reflexivity|].
  destruct (Z.leb_spec z 0); [reflexivity|lia].
Qed.

Lemma digits_upto_spec fuel :
  forall z,
    (0 < z < 2 ^ Z.of_nat fuel)%Z ->
    (1 <= digits_upto fuel z
     /\ 10 ^ (digits_upto fuel z - 1) <= z < 10 ^ digits_upto fuel z)%Z.
Proof.
  induction fuel as [|fuel IH]; intros z [Hz Hf].
  - simpl in Hf. lia.
  - cbn [digits_upto]. destruct (Z.leb_spec z 0) as [|_]; [lia|].
    rewrite Nat2Z.inj_succ, Z.pow_succ_r in Hf by lia.
    pose proof (Z.div_mod z 10 ltac:(lia)) as DM.
    pose proof (Z.mod_pos_bound z 10 ltac:(lia)) as MB.
    destruct (Z.eq_dec (z / 10) 0) as [E|N].
    + rewrite E, digits_upto_nonpos by lia. simpl. lia.
    + assert (P : (0 < z / 10 < 2 ^ Z.of_nat fuel)%Z).
      { pose proof (Z.div_pos z 10 ltac:(lia) ltac:(lia)). lia. }
      destruct (IH _ P) as (D1 & L & U).
      set (d := digits_upto fuel (z / 10)) in *.
      split; [lia|].
      replace (1 + d - 1)%Z with (Z.succ (d - 1)) by lia.
      replace (1 + d)%Z with (Z.succ d) by lia.
      rewrite !Z.pow_succ_r by lia. lia.
Qed.

Lemma digits_spec z :
  (0 < z)%Z ->
  (1 <= digits z /\ 10 ^ (digits z - 1) <= z < 10 ^ digits z)%Z.
Proof.
  intros Hz. apply digits_upto_spec. split; [assumption|].
  rewrite Nat2Z.inj_succ, Z2Nat.id by apply Z.log2_nonneg.
  apply Z.log2_spec. assumption.
Qed.

Lemma ten_nonzero : ~ 10 == 0.
Proof. discriminate. Qed.

Lemma pow10_pos e : 0 < 10 ^ e.
Proof. apply Qpower_0_lt. reflexivity. Qed.

Lemma pow10_add a b : 10 ^ (a + b) == 10 ^ a * 10 ^ b.
Proof. apply Qpower_plus, ten_nonzero. Qed.

Lemma pow10_Z n : (0 <= n)%Z -> inject_Z (10 ^ n) == 10 ^ n.
Proof. intros H. now rewrite Zpower_Qpower. Qed.

Lemma pow10_le a b : (a <= b)%Z -> 10 ^ a <= 10 ^ b.
Proof. intros H. apply Qpower_le_compat_l; [assumption|discriminate]. Qed.

Lemma round_half_even_Z x z : x == inject_Z z -> round_half_even x = z.
Proof.
  intros H. unfold round_half_even.
  assert (F : Qfloor x = z) by (rewrite H; apply Qfloor_Z).
  rewrite F.
  assert (C : (x - inject_Z z ?= 1 # 2)%Q = Lt).
  { apply Qlt_alt. rewrite H.
    setoid_replace (inject_Z z - inject_Z z) with 0 by ring. reflexivity. }
  now rewrite C.
Qed.

Lemma Qabs_num_den q :
  Qabs q * inject_Z (Zpos (Qden q)) == inject_Z (Z.abs (Qnum q)).
Proof.
  destruct q as [n d]. unfold Qabs, Qeq, Qmult, inject_Z. simpl. lia.
Qed.

(** The chosen exponent leaves at least [p] digits before the point. *)
Lemma exponent_for_low p q :
  ~ q == 0 -> 10 ^ (exponent_for p q + p - 1) <= Qabs q.
Proof.
  intros NZ. unfold exponent_for.
  set (dn := digits (Z.abs (Qnum q))). set (dd := digits (Zpos (Qden q))).
  destruct (Qle_bool (10 ^ (dn - dd - p + p)) (Qabs q)) eqn:T.
  - apply Qle_bool_iff in T.
    replace (dn - dd - p + 1 + p - 1)%Z with (dn - dd - p + p)%Z by lia.
    exact T.
  - replace (dn - dd - p + p - 1)%Z with ((dn - 1) + - dd)%Z by lia.
    assert (Nn : (0 < Z.abs (Qnum q))%Z).
    { destruct q as [n d]. unfold Qeq in NZ. simpl in *. lia. }
    destruct (digits_spec _ Nn) as (D1 & L & _). fold dn in D1, L.
    destruct (digits_spec (Zpos (Qden q)) ltac:(lia)) as (E1 & _ & U).
    fold dd in E1, U.
    assert (Dp : 0 < inject_Z (Zpos (Qden q))).
    { unfold Qlt. simpl. lia. }
    apply (Qmult_le_r _ _ _ Dp). rewrite Qabs_num_den.
    apply Qle_trans with (10 ^ (dn - 1 + - dd) * 10 ^ dd).
    + apply Qmult_le_l; [apply pow10_pos|].
      rewrite <- pow10_Z by lia. rewrite <- Zle_Qle. lia.
    + rewrite <- pow10_add.
      replace (dn - 1 + - dd + dd)%Z with (dn - 1)%Z by lia.
      rewrite <- pow10_Z by lia. rewrite <- Zle_Qle. exact L.
Qed.

Theorem round_to_exact p q : (0 <= p)%Z -> fits p q -> round_to p q == q.
Proof.
  intros Hp (c & e0 & Hc & Hq). unfold round_to.
  destruct (Qeq_bool q 0) eqn:Z0.
  - apply Qeq_bool_eq in Z0. now symmetry.
  - apply Qeq_bool_neq in Z0. cbv zeta.
    pose proof (exponent_for_low p q Z0) as Low.
    set (e := exponent_for p q) in *.
    assert (Habs : Qabs q == inject_Z (Z.abs c) * 10 ^ e0).
    { rewrite Hq, Qabs_Qmult. apply Qmult_comp.
      - unfold Qabs, inject_Z. reflexivity.
      - apply Qabs_pos, Qlt_le_weak, pow10_pos. }
    assert (Le : (e <= e0)%Z).
    { destruct (Z_le_gt_dec e e0) as [|G]; [assumption|]. exfalso.
      apply (Qlt_not_le (Qabs q) (10 ^ (e + p - 1))); [|exact Low].
      rewrite Habs.
      apply Qlt_le_trans with (10 ^ p * 10 ^ e0).
      - apply Qmult_lt_compat_r; [apply pow10_pos|].
        rewrite <- pow10_Z by assumption. rewrite <- Zlt_Qlt. exact Hc.
      - rewrite <- pow10_add. apply pow10_le. lia. }
    assert (Split : 10 ^ e0 == inject_Z (10 ^ (e0 - e)) * 10 ^ e).
    { rewrite pow10_Z by lia. rewrite <- pow10_add. f_equiv. lia. }
    assert (X : q / 10 ^ e == inject_Z (c * 10 ^ (e0 - e))).
    { rewrite Hq, Split, inject_Z_mult. field.
      intros E. apply (Qlt_irrefl 0). rewrite <- E at 2. apply pow10_pos. }
    rewrite (round_half_even_Z _ _ X).
    rewrite Hq, Split, inject_Z_mult. ring.
Qed.



Lemma round_ctx_zero q : q == 0 -> round_ctx q = 0%Q.
Proof.
  intros H. unfold round_ctx, round_to.
  apply Qeq_bool_iff in H. now rewrite H.
Qed.

Lemma prec_nonneg : (0 <= prec)%Z.
Proof. discriminate. Qed.

Lemma fits_Qeq p q q' : q == q' -> fits p q -> fits p q'.
Proof.
  intros E (c & e & Hc & Hq). exists c, e. split; [assumption|].
  now rewrite <- E.
Qed.

(** A result that fits the context is not rounded. *)
Lemma round_ctx_exact q q' : q == q' -> fits_context q' -> round_ctx q == q'.
Proof.
  intros E F. rewrite <- E. apply round_to_exact; [apply prec_nonneg|].
  apply (fits_Qeq prec q' q); [now symmetry|assumption].
Qed.



(** ** Placing orders *)

Lemma create_order_run now_ms utcnow symbol side order_type amount price params a :
  GrvtAdapter.limit_family order_type = true ->
  let cid := GrvtAdapter.params_client_order_id params in
  let e := GrvtRest.new_entry now_ms utcnow symbol side (decimal_or_zero price)
             amount cid in
  GrvtAdapter.create_order now_ms utcnow symbol side order_type amount price
    params a
  = (inr (GrvtRest._to_order_data e),
     GrvtAdapter.mk
       (GrvtRest.with_orders
          (dict_set (Entry.id e) e (GrvtRest._orders (GrvtAdapter.rest a)))
          (GrvtAdapter.rest a))
       (GrvtWebSocket.send_user_event (GrvtRest._to_order_data e)
          (GrvtAdapter.websocket a))
       (GrvtAdapter._order_callbacks a)).
Proof.
  intros L. unfold GrvtAdapter.create_order. rewrite L. reflexivity.
Qed.




(** C10. A limit-family placement without a price does not fail: it stores
    and returns an order whose price is 0 and whose cost is 0. *)
Theorem create_order_without_price :
  forall now_ms utcnow symbol side order_type amount params a,
    GrvtAdapter.limit_family order_type = true ->
    exists o a' e,
      GrvtAdapter.create_order now_ms utcnow symbol side order_type amount
        None params a = (inr o, a')
      /\ OrderData.price o = Some 0%Q
      /\ OrderData.cost o == 0
      /\ dict_get (OrderData.id o) (GrvtRest._orders (GrvtAdapter.rest a'))
         = Some e
      /\ Entry.price e = 0%Q
      /\ GrvtRest._to_order_data e = o.
Proof.
  intros now_ms utcnow symbol side order_type amount params a L.
  eexists. eexists. eexists. split; [apply create_order_run; exact L|].
  cbn [GrvtRest._to_order_data GrvtRest.new_entry OrderData.price Entry.price
       OrderData.cost OrderData.id Entry.id Entry.amount GrvtAdapter.rest
       GrvtRest.with_orders GrvtRest._orders decimal_or_zero].
  split; [reflexivity|]. split.
  - change (Qeq_bool 0 0) with true. cbv iota. apply Qmult_0_l.
  - split; [apply dict_get_set_same|]. split; reflexivity.
Qed.

Lemma create_order_without_price_witness :
  exists o a' e,
    GrvtAdapter.create_order 1700000000000 1700000000000123%Z "BTC-PERP" SELL
      POST_ONLY (3 # 2) None None GrvtAdapter.init = (inr o, a')
    /\ OrderData.price o = Some 0%Q
    /\ OrderData.cost o == 0
    /\ dict_get (OrderData.id o) (GrvtRest._orders (GrvtAdapter.rest a'))
       = Some e
    /\ Entry.price e = 0%Q
    /\ GrvtRest._to_order_data e = o.
Proof.
  apply (create_order_without_price 1700000000000 1700000000000123%Z "BTC-PERP"
           SELL POST_ONLY (3 # 2) None GrvtAdapter.init).
  reflexivity.
Defined.

(** ** Cancelling one order *)

Lemma rest_cancel_missing ts symbol k r :
  dict_get k (GrvtRest._orders r) = None ->
  GrvtRest.cancel_order ts symbol (Some k) None r = (None, r).
Proof.
  intros G. unfold GrvtRest.cancel_order, opt_str_or.
  destruct k as [|c s]; simpl; [reflexivity|].
  simpl in G. now rewrite G.
Qed.

Lemma rest_cancel_found ts symbol k e r :
  k <> "" ->
  dict_get k (GrvtRest._orders r) = Some e ->
  GrvtRest.cancel_order ts symbol (Some k) None r
  = (Some (GrvtRest._to_order_data (canceled ts e)),
     GrvtRest.with_orders (dict_set k (canceled ts e) (GrvtRest._orders r)) r).
Proof.
  intros N G. unfold GrvtRest.cancel_order, opt_str_or.
  destruct k as [|c s]; [congruence|]. simpl str_truthy. cbv iota.
  now rewrite G.
Qed.

Lemma adapter_eta (a : GrvtAdapter.t) :
  GrvtAdapter.mk (GrvtAdapter.rest a) (GrvtAdapter.websocket a)
    (GrvtAdapter._order_callbacks a) = a.
Proof. now destruct a. Qed.

Lemma cancel_order_missing ts k symbol a :
  dict_get k (GrvtRest._orders (GrvtAdapter.rest a)) = None ->
  GrvtAdapter.cancel_order ts k symbol a = (inl (GrvtAdapter.OrderNotFound k), a).
Proof.
  intros G.
  unfold GrvtAdapter.cancel_order, GrvtAdapter.bind, GrvtAdapter.in_rest.
  rewrite rest_cancel_missing by assumption.
  unfold GrvtAdapter.raise. now rewrite adapter_eta.
Qed.

Lemma cancel_order_found ts k symbol e a :
  k <> "" ->
  dict_get k (GrvtRest._orders (GrvtAdapter.rest a)) = Some e ->
  GrvtAdapter.cancel_order ts k symbol a
  = (inr (GrvtRest._to_order_data (canceled ts e)),
     GrvtAdapter.mk
       (GrvtRest.with_orders
          (dict_set k (canceled ts e) (GrvtRest._orders (GrvtAdapter.rest a)))
          (GrvtAdapter.rest a))
       (GrvtWebSocket.send_user_event (GrvtRest._to_order_data (canceled ts e))
          (GrvtAdapter.websocket a))
       (GrvtAdapter._order_callbacks a)).
Proof.
  intros N G.
  unfold GrvtAdapter.cancel_order, GrvtAdapter.bind, GrvtAdapter.in_rest.
  rewrite (rest_cancel_found ts symbol k e) by assumption.
  reflexivity.
Qed.

Lemma canceled_again ts e :
  Entry.status e = CANCELED -> canceled ts e = Entry.set_updated ts e.
Proof.
  destruct e; simpl. intros ->. reflexivity.
Qed.

(** C3. Cancelling an id that is not in the ledger raises OrderNotFound and
    leaves the whole state as it was.  In a ledger kept by the adapter,
    cancelling an order that is already CANCELED succeeds and returns it with
    status CANCELED again, only its update time being refreshed. *)
Theorem cancel_order_unknown_or_canceled :
  forall utcnow order_id symbol a,
    (dict_get order_id (GrvtRest._orders (GrvtAdapter.rest a)) = None ->
     GrvtAdapter.cancel_order utcnow order_id symbol a
     = (inl (GrvtAdapter.OrderNotFound order_id), a))
    /\ (forall e,
          ledger_ok (GrvtRest._orders (GrvtAdapter.rest a)) ->
          dict_get order_id (GrvtRest._orders (GrvtAdapter.rest a)) = Some e ->
          Entry.status e = CANCELED ->
          exists o a',
            GrvtAdapter.cancel_order utcnow order_id symbol a = (inr o, a')
            /\ OrderData.id o = order_id
            /\ OrderData.status o = CANCELED
            /\ dict_get order_id (GrvtRest._orders (GrvtAdapter.rest a'))
               = Some (Entry.set_updated utcnow e)
            /\ forall k, k <> order_id ->
                 dict_get k (GrvtRest._orders (GrvtAdapter.rest a'))
                 = dict_get k (GrvtRest._orders (GrvtAdapter.rest a))).
Proof.
  intros utcnow order_id symbol a. split.
  - apply cancel_order_missing.
  - intros e OK G St.
    destruct (ledger_ok_get _ _ _ OK G) as [N I].
    eexists. eexists. split; [apply cancel_order_found; eassumption|].
    cbn [GrvtAdapter.rest GrvtRest.with_orders GrvtRest._orders].
    split; [exact I|]. split; [reflexivity|]. split.
    + rewrite dict_get_set_same. now rewrite canceled_again.
    + intros k Nk. now apply dict_get_set_other.
Qed.

(** ** Cancelling every open order *)

Lemma rest_eta (r : GrvtRest.t) : GrvtRest.with_orders (GrvtRest._orders r) r = r.
Proof. now destruct r. Qed.

Lemma canceled_id ts e : Entry.id (canceled ts e) = Entry.id e.
Proof. reflexivity. Qed.

Lemma canceled_status ts e : Entry.status (canceled ts e) = CANCELED.
Proof. reflexivity. Qed.

Lemma stamped_ids utcnow es : map Entry.id (stamped utcnow es) = map Entry.id es.
Proof.
  revert utcnow. induction es as [|e more IH]; intros utcnow; simpl.
  - reflexivity.
  - now rewrite IH.
Qed.

Lemma In_stamped x utcnow es :
  In x (stamped utcnow es) -> exists e i, In e es /\ x = canceled (utcnow i) e.
Proof.
  revert utcnow. induction es as [|e more IH]; intros utcnow; simpl; [tauto|].
  intros [<-|I].
  - exists e, O. tauto.
  - destruct (IH _ I) as (e' & i & I' & ->). exists e', (S i). tauto.
Qed.

Lemma stamped_In e utcnow es :
  In e es -> exists i, In (canceled (utcnow i) e) (stamped utcnow es).
Proof.
  revert utcnow. induction es as [|e0 more IH]; intros utcnow; simpl; [tauto|].
  intros [->|I].
  - exists O. now left.
  - destruct (IH (fun i => utcnow (S i)) I) as [i Hi]. exists (S i). now right.
Qed.

Lemma store_all_get_out k xs d :
  ~ In k (map Entry.id xs) -> dict_get k (store_all xs d) = dict_get k d.
Proof.
  revert d. induction xs as [|x more IH]; intros d N; simpl; [reflexivity|].
  simpl in N. unfold store_all in IH. rewrite IH by tauto.
  apply dict_get_set_other. intros E. apply N. now left.
Qed.

Lemma store_all_get_in x xs d :
  NoDup (map Entry.id xs) -> In x xs ->
  dict_get (Entry.id x) (store_all xs d) = Some x.
Proof.
  revert d. induction xs as [|x0 more IH]; intros d ND I; simpl; [destruct I|].
  inversion ND as [|? ? NI ND']; subst. destruct I as [->|I].
  - fold (store_all more (dict_set (Entry.id x) x d)).
    rewrite store_all_get_out by assumption. apply dict_get_set_same.
  - now apply IH.
Qed.

Lemma store_all_keys xs d :
  (forall x, In x xs -> In (Entry.id x) (dict_keys d)) ->
  dict_keys (store_all xs d) = dict_keys d.
Proof.
  revert d. induction xs as [|x more IH]; intros d H; simpl; [reflexivity|].
  unfold store_all in IH. rewrite IH.
  - apply dict_keys_set_present. apply H. now left.
  - intros y Iy. rewrite dict_keys_set_present; apply H; simpl; tauto.
Qed.

Lemma ledger_ok_store_all xs d :
  ledger_ok d -> (forall x, In x xs -> Entry.id x <> "") ->
  ledger_ok (store_all xs d).
Proof.
  revert d. induction xs as [|x more IH]; intros d OK H; simpl; [assumption|].
  apply IH.
  - apply ledger_ok_set; [assumption| |reflexivity]. apply H. now left.
  - intros y Iy. apply H. now right.
Qed.

Lemma emit_all_queue {Event} (events : list Event) ws :
  GrvtWebSocket._queue (emit_all events ws) = GrvtWebSocket._queue ws ++ events.
Proof.
  revert ws. induction events as [|ev more IH]; intros ws; simpl.
  - now rewrite app_nil_r.
  - change (emit_all (ev :: more) ws)
      with (emit_all more (GrvtWebSocket.send_user_event ev ws)).
    rewrite IH.
    assert (Q : GrvtWebSocket._queue (GrvtWebSocket.send_user_event ev ws)
                = GrvtWebSocket._queue ws ++ [ev]).
    { unfold GrvtWebSocket.send_user_event.
      destruct (GrvtWebSocket._connected ws); reflexivity. }
    rewrite Q, <- app_assoc. reflexivity.
Qed.

(** The loop of [cancel_all_orders] over a snapshot of distinct ledger
    records: each is cancelled, stored and emitted, in order. *)
Lemma cancel_each_run es :
  forall utcnow a,
    ledger_ok (GrvtRest._orders (GrvtAdapter.rest a)) ->
    NoDup (map Entry.id es) ->
    (forall e, In e es ->
       dict_get (Entry.id e) (GrvtRest._orders (GrvtAdapter.rest a)) = Some e) ->
    GrvtAdapter.cancel_each utcnow (map GrvtRest._to_order_data es) a
    = (inr (map GrvtRest._to_order_data (stamped utcnow es)),
       GrvtAdapter.mk
         (GrvtRest.with_orders
            (store_all (stamped utcnow es)
               (GrvtRest._orders (GrvtAdapter.rest a)))
            (GrvtAdapter.rest a))
         (emit_all (map GrvtRest._to_order_data (stamped utcnow es))
            (GrvtAdapter.websocket a))
         (GrvtAdapter._order_callbacks a)).
Proof.
  induction es as [|e more IH]; intros utcnow a OK ND G.
  - simpl. unfold GrvtAdapter.ret. now rewrite rest_eta, adapter_eta.
  - inversion ND as [|? ? NI ND']; subst.
    assert (Ge : dict_get (Entry.id e) (GrvtRest._orders (GrvtAdapter.rest a))
                 = Some e) by (apply G; now left).
    destruct (ledger_ok_get _ _ _ OK Ge) as [Ne _].
    cbn [map GrvtAdapter.cancel_each].
    unfold GrvtAdapter.bind at 1. unfold GrvtAdapter.in_rest at 1.
    change (OrderData.id (GrvtRest._to_order_data e)) with (Entry.id e).
    rewrite (rest_cancel_found (utcnow O) _ (Entry.id e) e) by assumption.
    unfold GrvtAdapter.bind at 1.
    unfold GrvtAdapter._emit_user_event, GrvtAdapter.in_websocket.
    unfold GrvtAdapter.bind at 1.
    cbn [GrvtAdapter.rest GrvtAdapter.websocket GrvtAdapter._order_callbacks].
    rewrite IH; [reflexivity| | assumption |].
    + cbn [GrvtAdapter.rest GrvtRest.with_orders GrvtRest._orders].
      apply ledger_ok_set; [assumption|assumption|reflexivity].
    + intros e' I'.
      cbn [GrvtAdapter.rest GrvtRest.with_orders GrvtRest._orders].
      rewrite dict_get_set_other.
      * apply G. now right.
      * intros E. apply NI. rewrite <- E. now apply in_map.
Qed.

Lemma NoDup_map_filter {A B} (f : A -> B) (p : A -> bool) l :
  NoDup (map f l) -> NoDup (map f (filter p l)).
Proof.
  induction l as [|x r IH]; simpl; intros ND; [constructor|].
  inversion ND as [|? ? NI ND']; subst.
  destruct (p x); simpl; [|now apply IH].
  constructor; [|now apply IH].
  intros I. apply NI. apply in_map_iff in I. destruct I as (y & E & I).
  apply filter_In in I. apply in_map_iff. exists y. tauto.
Qed.

Lemma ledger_ok_value_ids d :
  ledger_ok d -> map Entry.id (dict_values d) = dict_keys d.
Proof.
  intros [_ H]. unfold dict_values, dict_keys.
  induction d as [|[k e] r IH]; simpl; [reflexivity|].
  f_equal.
  - apply (H k e). now left.
  - apply IH. intros k0 e0 I. apply H. now right.
Qed.

Lemma ledger_ok_value_get d e :
  ledger_ok d -> In e (dict_values d) -> dict_get (Entry.id e) d = Some e.
Proof.
  intros OK I. unfold dict_values in I. apply in_map_iff in I.
  destruct I as ([k e'] & E & I). simpl in E. subst e'.
  destruct OK as [ND H]. destruct (H k e I) as [_ ->].
  now apply In_dict_get.
Qed.

Lemma cancel_all_orders_run utcnow symbol a :
  ledger_ok (GrvtRest._orders (GrvtAdapter.rest a)) ->
  let updated := stamped utcnow (open_entries symbol a) in
  GrvtAdapter.cancel_all_orders utcnow symbol a
  = (inr (map GrvtRest._to_order_data updated),
     GrvtAdapter.mk
       (GrvtRest.with_orders
          (store_all updated (GrvtRest._orders (GrvtAdapter.rest a)))
          (GrvtAdapter.rest a))
       (emit_all (map GrvtRest._to_order_data updated) (GrvtAdapter.websocket a))
       (GrvtAdapter._order_callbacks a)).
Proof.
  intros OK updated.
  unfold GrvtAdapter.cancel_all_orders, GrvtAdapter.bind, GrvtAdapter.in_rest.
  rewrite adapter_eta. unfold GrvtRest.get_open_orders.
  apply cancel_each_run.
  - assumption.
  - apply NoDup_map_filter. rewrite ledger_ok_value_ids by assumption.
    apply OK.
  - intros e I. apply filter_In in I. now apply ledger_ok_value_get.
Qed.

Lemma is_open_for_targeted symbol e :
  GrvtRest.is_open_for symbol e = true <-> targeted symbol e.
Proof.
  unfold GrvtRest.is_open_for, targeted.
  rewrite andb_true_iff. split.
  - intros [S M]. split.
    + destruct (Entry.status e); simpl in S; congruence.
    + intros s -> N. destruct s as [|c s]; [congruence|].
      simpl in M. now apply String.eqb_eq in M.
  - intros [S M]. split.
    + now rewrite S.
    + destruct symbol as [[|c s]|]; simpl; try reflexivity.
      apply String.eqb_eq. apply M; [reflexivity|discriminate].
Qed.

Lemma order_data_ids xs :
  map OrderData.id (map GrvtRest._to_order_data xs) = map Entry.id xs.
Proof.
  rewrite map_map. reflexivity.
Qed.

Lemma open_entries_In symbol a e :
  ledger_ok (GrvtRest._orders (GrvtAdapter.rest a)) ->
  In e (open_entries symbol a) <->
  dict_get (Entry.id e) (GrvtRest._orders (GrvtAdapter.rest a)) = Some e
  /\ targeted symbol e.
Proof.
  intros OK. unfold open_entries. rewrite filter_In, is_open_for_targeted.
  split; intros [H T]; split; try assumption.
  - now apply ledger_ok_value_get.
  - apply dict_get_In in H. unfold dict_values. apply in_map_iff.
    now exists (Entry.id e, e).
Qed.

Lemma open_entries_NoDup symbol a :
  ledger_ok (GrvtRest._orders (GrvtAdapter.rest a)) ->
  NoDup (map Entry.id (open_entries symbol a)).
Proof.
  intros OK. apply NoDup_map_filter.
  rewrite ledger_ok_value_ids by assumption. apply OK.
Qed.

(** C5. In a ledger kept by the adapter, [cancel_all(symbol)] never raises;
    it keeps the keys of the ledger; every record that is OPEN (and of the
    symbol, when one is given) becomes its cancelled version, which is
    returned, once; every other record is left as it is and is not returned;
    and whatever is returned is the CANCELED version of a record that was
    OPEN and of the symbol. *)
Theorem cancel_all_orders_cancels_open_only :
  forall utcnow symbol a,
    ledger_ok (GrvtRest._orders (GrvtAdapter.rest a)) ->
    exists cancelled a',
      GrvtAdapter.cancel_all_orders utcnow symbol a = (inr cancelled, a')
      /\ dict_keys (GrvtRest._orders (GrvtAdapter.rest a'))
         = dict_keys (GrvtRest._orders (GrvtAdapter.rest a))
      /\ NoDup (map OrderData.id cancelled)
      /\ (forall k e,
            dict_get k (GrvtRest._orders (GrvtAdapter.rest a)) = Some e ->
            (targeted symbol e ->
             exists ts,
               dict_get k (GrvtRest._orders (GrvtAdapter.rest a'))
               = Some (canceled ts e)
               /\ In (GrvtRest._to_order_data (canceled ts e)) cancelled)
            /\ (~ targeted symbol e ->
                dict_get k (GrvtRest._orders (GrvtAdapter.rest a')) = Some e
                /\ ~ In k (map OrderData.id cancelled)))
      /\ (forall o,
            In o cancelled ->
            OrderData.status o = CANCELED
            /\ exists e ts,
                 dict_get (OrderData.id o)
                   (GrvtRest._orders (GrvtAdapter.rest a)) = Some e
                 /\ targeted symbol e
                 /\ o = GrvtRest._to_order_data (canceled ts e)).
Proof.
  intros utcnow symbol a OK.
  pose proof (open_entries_NoDup symbol a OK) as ND.
  eexists. eexists. split; [apply cancel_all_orders_run; exact OK|].
  cbn [GrvtAdapter.rest GrvtRest.with_orders GrvtRest._orders].
  set (es := open_entries symbol a) in *.
  set (d := GrvtRest._orders (GrvtAdapter.rest a)) in *.
  assert (NDs : NoDup (map Entry.id (stamped utcnow es)))
    by now rewrite stamped_ids.
  split; [|split; [|split]].
  - apply store_all_keys. intros x Ix.
    apply In_stamped in Ix. destruct Ix as (e & i & Ie & ->).
    apply (open_entries_In symbol a e OK) in Ie. destruct Ie as [G _].
    rewrite canceled_id. eapply dict_get_Some_key; eassumption.
  - now rewrite order_data_ids.
  - intros k e G. destruct (ledger_ok_get _ _ _ OK G) as [_ Ik]. split.
    + intros T.
      assert (Ie : In e es).
      { apply (open_entries_In symbol a e OK). rewrite Ik. tauto. }
      destruct (stamped_In e utcnow es Ie) as [i Hi].
      exists (utcnow i). split.
      * rewrite <- Ik, <- (canceled_id (utcnow i) e).
        now apply store_all_get_in.
      * now apply in_map.
    + intros NT.
      assert (N : ~ In k (map Entry.id (stamped utcnow es))).
      { rewrite stamped_ids. intros I. apply in_map_iff in I.
        destruct I as (e' & E & I).
        apply (open_entries_In symbol a e' OK) in I. destruct I as [G' T'].
        rewrite E in G'. fold d in G'. rewrite G in G'.
        injection G' as ->. now apply NT. }
      split.
      * now rewrite store_all_get_out.
      * now rewrite order_data_ids.
  - intros o Io. apply in_map_iff in Io. destruct Io as (x & <- & Ix).
    apply In_stamped in Ix. destruct Ix as (e & i & Ie & ->).
    split; [reflexivity|].
    apply (open_entries_In symbol a e OK) in Ie. destruct Ie as [G T].
    exists e, (utcnow i). tauto.
Qed.

(** ** The ledger invariant is kept by every operation *)

Lemma create_order_raises now_ms utcnow symbol side order_type amount price params a :
  GrvtAdapter.limit_family order_type = false ->
  GrvtAdapter.create_order now_ms utcnow symbol side order_type amount price
    params a = (inl GrvtAdapter.UnsupportedOrderType, a).
Proof.
  intros L. unfold GrvtAdapter.create_order. now rewrite L.
Qed.

Lemma exec_ledger_ok op a :
  ledger_ok (GrvtRest._orders (GrvtAdapter.rest a)) ->
  ledger_ok (GrvtRest._orders (GrvtAdapter.rest (GrvtAdapter.exec op a))).
Proof.
  intros OK. unfold GrvtAdapter.exec.
  destruct op as [now_ms utcnow symbol side order_type amount price params
                 |utcnow order_id symbol|utcnow symbol];
    cbn [GrvtAdapter.run]; unfold GrvtAdapter.bind.
  - destruct (GrvtAdapter.limit_family order_type) eqn:L.
    + rewrite create_order_run by assumption. simpl.
      apply ledger_ok_set; [assumption| |reflexivity].
      apply order_id_for_nonempty.
    + now rewrite create_order_raises.
  - destruct (dict_get order_id (GrvtRest._orders (GrvtAdapter.rest a)))
      as [e|] eqn:G.
    + destruct (ledger_ok_get _ _ _ OK G) as [N I].
      rewrite (cancel_order_found utcnow order_id symbol e) by assumption.
      simpl. apply ledger_ok_set; assumption.
    + now rewrite cancel_order_missing.
  - rewrite cancel_all_orders_run by assumption. simpl.
    apply ledger_ok_store_all; [assumption|].
    intros x Ix. apply In_stamped in Ix. destruct Ix as (e & i & Ie & ->).
    apply (open_entries_In symbol a e OK) in Ie. destruct Ie as [G _].
    rewrite canceled_id. eapply ledger_ok_get; eassumption.
Qed.

Lemma exec_all_ledger_ok ops a :
  ledger_ok (GrvtRest._orders (GrvtAdapter.rest a)) ->
  ledger_ok (GrvtRest._orders (GrvtAdapter.rest (GrvtAdapter.exec_all ops a))).
Proof.
  revert a. induction ops as [|op more IH]; intros a OK; simpl; [assumption|].
  apply IH. now apply exec_ledger_ok.
Qed.

Lemma reachable_ledger_ok ops :
  ledger_ok
    (GrvtRest._orders (GrvtAdapter.rest (GrvtAdapter.exec_all ops GrvtAdapter.init))).
Proof.
  apply exec_all_ledger_ok. apply ledger_ok_nil.
Qed.

(** ** The sample session *)

Ltac ledger_ok_by_cases :=
  split;
  [ repeat constructor; simpl; intuition discriminate
  | let k := fresh "k" in
    let e := fresh "e" in
    let I := fresh "I" in
    intros k e I; simpl in I;
    repeat (destruct I as [I|I];
            [injection I as <- <-; split; [discriminate|reflexivity]|]);
    contradiction ].

Lemma after_session_ok :
  ledger_ok (GrvtRest._orders (GrvtAdapter.rest after_session)).
Proof.
  vm_compute GrvtRest._orders. ledger_ok_by_cases.
Defined.

Lemma cancel_order_unknown_or_canceled_witness :
  GrvtAdapter.cancel_order 1700000000003000%Z "b" "BTC-PERP" after_session
  = (inl (GrvtAdapter.OrderNotFound "b"), after_session)
  /\ exists o a',
       GrvtAdapter.cancel_order 1700000000003000%Z "a" "BTC-PERP" after_session
       = (inr o, a')
       /\ OrderData.id o = "a"
       /\ OrderData.status o = CANCELED.
Proof.
  split.
  - apply (cancel_order_unknown_or_canceled 1700000000003000%Z "b" "BTC-PERP"
             after_session).
    reflexivity.
  - destruct (cancel_order_unknown_or_canceled 1700000000003000%Z "a"
                "BTC-PERP" after_session) as [_ H].
    destruct (H (Entry.mk "a" (Some "a") "BTC-PERP" BUY LIMIT 50000 1 0
                   CANCELED 1700000000000000%Z 1700000000002000%Z))
      as (o & a' & R & I & S & _).
    + exact after_session_ok.
    + reflexivity.
    + reflexivity.
    + exists o, a'. tauto.
Defined.

Lemma cancel_all_orders_cancels_open_only_witness :
  exists cancelled a',
    GrvtAdapter.cancel_all_orders (fun i => 1700000000003000 + Z.of_nat i)%Z
      None after_session = (inr cancelled, a')
    /\ dict_keys (GrvtRest._orders (GrvtAdapter.rest a'))
       = dict_keys (GrvtRest._orders (GrvtAdapter.rest after_session))
    /\ NoDup (map OrderData.id cancelled).
Proof.
  destruct (cancel_all_orders_cancels_open_only
              (fun i => 1700000000003000 + Z.of_nat i)%Z None after_session
              after_session_ok) as (cancelled & a' & R & K & N & _).
  exists cancelled, a'. tauto.
Defined.

(** ** What every operation keeps *)

Lemma rest_cancel_cases ts symbol oid cid r :
  GrvtRest.cancel_order ts symbol oid cid r = (None, r)
  \/ exists k e,
       dict_get k (GrvtRest._orders r) = Some e
       /\ GrvtRest.cancel_order ts symbol oid cid r
          = (Some (GrvtRest._to_order_data (canceled ts e)),
             GrvtRest.with_orders
               (dict_set k (canceled ts e) (GrvtRest._orders r)) r).
Proof.
  unfold GrvtRest.cancel_order.
  destruct (opt_str_or oid cid) as [[|c s]|]; try (now left).
  destruct (dict_get (String c s) (GrvtRest._orders r)) as [e|] eqn:G.
  - right. exists (String c s), e. tauto.
  - now left.
Qed.

Section Preservation.
(** A relation between ledgers that placements under ids satisfying
    [fresh_enough] and all cancellations respect. *)
Variable keeps : GrvtRest.t -> GrvtRest.t -> Prop.
Variable fresh_enough : string -> Prop.

Hypothesis keeps_refl : forall r, keeps r r.
Hypothesis keeps_trans :
  forall r1 r2 r3, keeps r1 r2 -> keeps r2 r3 -> keeps r1 r3.
Hypothesis keeps_cancel :
  forall ts symbol oid cid r,
    keeps r (snd (GrvtRest.cancel_order ts symbol oid cid r)).
Hypothesis keeps_place :
  forall now_ms utcnow symbol side price size cid r,
    fresh_enough (GrvtRest.order_id_for now_ms cid) ->
    keeps r (snd (GrvtRest.place_limit_order now_ms utcnow symbol side price
                    size cid r)).

Lemma cancel_each_keeps open_orders :
  forall utcnow a,
    keeps (GrvtAdapter.rest a)
      (GrvtAdapter.rest (snd (GrvtAdapter.cancel_each utcnow open_orders a))).
Proof.
  induction open_orders as [|order more IH]; intros utcnow a.
  - apply keeps_refl.
  - cbn [GrvtAdapter.cancel_each].
    unfold GrvtAdapter.bind at 1. unfold GrvtAdapter.in_rest at 1.
    pose proof (keeps_cancel (utcnow O) (OrderData.symbol order)
                  (Some (OrderData.id order)) None (GrvtAdapter.rest a)) as K.
    destruct (GrvtRest.cancel_order (utcnow O) (OrderData.symbol order)
                (Some (OrderData.id order)) None (GrvtAdapter.rest a))
      as [[u|] r']; simpl in K.
    + unfold GrvtAdapter.bind at 1.
      unfold GrvtAdapter._emit_user_event, GrvtAdapter.in_websocket.
      unfold GrvtAdapter.bind at 1.
      match goal with
      | |- context [GrvtAdapter.cancel_each ?c more ?s] =>
          pose proof (IH c s) as K2;
          destruct (GrvtAdapter.cancel_each c more s) as [[err|res] a2]
      end; eapply keeps_trans; eauto.
    + eapply keeps_trans; [exact K|].
      apply (IH (fun i => utcnow (S i))
               (GrvtAdapter.mk r' (GrvtAdapter.websocket a)
                  (GrvtAdapter._order_callbacks a))).
Qed.

Lemma exec_keeps op a :
  (forall k, GrvtAdapter.placed_id op = Some k -> fresh_enough k) ->
  keeps (GrvtAdapter.rest a) (GrvtAdapter.rest (GrvtAdapter.exec op a)).
Proof.
  intros F. unfold GrvtAdapter.exec.
  destruct op as [now_ms utcnow symbol side order_type amount price params
                 |utcnow order_id symbol|utcnow symbol];
    cbn [GrvtAdapter.run]; unfold GrvtAdapter.bind.
  - destruct (GrvtAdapter.limit_family order_type) eqn:L.
    + rewrite create_order_run by assumption. simpl.
      apply (keeps_place now_ms utcnow symbol side (decimal_or_zero price)
               amount (GrvtAdapter.params_client_order_id params)).
      apply F. simpl. now rewrite L.
    + rewrite create_order_raises by assumption. apply keeps_refl.
  - unfold GrvtAdapter.cancel_order, GrvtAdapter.bind, GrvtAdapter.in_rest.
    pose proof (keeps_cancel utcnow symbol (Some order_id) None
                  (GrvtAdapter.rest a)) as K.
    destruct (GrvtRest.cancel_order utcnow symbol (Some order_id) None
                (GrvtAdapter.rest a)) as [[u|] r']; exact K.
  - unfold GrvtAdapter.cancel_all_orders, GrvtAdapter.bind,
      GrvtAdapter.in_rest.
    rewrite adapter_eta. apply cancel_each_keeps.
Qed.

Lemma exec_all_keeps ops :
  forall a,
    (forall op k, In op ops -> GrvtAdapter.placed_id op = Some k ->
                  fresh_enough k) ->
    keeps (GrvtAdapter.rest a) (GrvtAdapter.rest (GrvtAdapter.exec_all ops a)).
Proof.
  induction ops as [|op more IH]; intros a F; simpl.
  - apply keeps_refl.
  - eapply keeps_trans.
    + apply exec_keeps. intros k. apply F. now left.
    + apply IH. intros op' k I. apply F. now right.
Qed.
End Preservation.

(** ** Balance *)

Lemma rest_cancel_balance ts symbol oid cid r :
  GrvtRest._balance (snd (GrvtRest.cancel_order ts symbol oid cid r))
  = GrvtRest._balance r.
Proof.
  destruct (rest_cancel_cases ts symbol oid cid r) as [E|(k & e & _ & E)];
    now rewrite E.
Qed.

(** C9. Whatever operations are run (placements, cancellations,
    cancel-alls, accepted or not), the balance reported afterwards has the
    free, used and total amounts it had before. *)
Theorem balance_is_invariant :
  forall ops a t0 t1,
    let before := GrvtRest.get_balance t0 (GrvtAdapter.rest a) in
    let after :=
      GrvtRest.get_balance t1 (GrvtAdapter.rest (GrvtAdapter.exec_all ops a)) in
    BalanceData.free after = BalanceData.free before
    /\ BalanceData.used after = BalanceData.used before
    /\ BalanceData.total after = BalanceData.total before.
Proof.
  intros ops a t0 t1. cbn zeta.
  assert (B : GrvtRest._balance (GrvtAdapter.rest (GrvtAdapter.exec_all ops a))
              = GrvtRest._balance (GrvtAdapter.rest a)).
  { apply (exec_all_keeps
             (fun r r' => GrvtRest._balance r' = GrvtRest._balance r)
             (fun _ => True)).
    - reflexivity.
    - intros r1 r2 r3 H1 H2. now rewrite H2.
    - intros. apply rest_cancel_balance.
    - reflexivity.
    - trivial. }
  unfold GrvtRest.get_balance. simpl. rewrite B. tauto.
Qed.

(** ** No resurrection *)

Lemma rest_cancel_stays_closed k ts symbol oid cid r :
  stays_closed k r (snd (GrvtRest.cancel_order ts symbol oid cid r)).
Proof.
  intros e G S.
  destruct (rest_cancel_cases ts symbol oid cid r) as [E|(k0 & e0 & G0 & E)];
    rewrite E; simpl.
  - now exists e.
  - destruct (string_dec k k0) as [<-|N].
    + rewrite dict_get_set_same. eexists. split; [reflexivity|]. discriminate.
    + rewrite dict_get_set_other by assumption. now exists e.
Qed.

(** C4, as the code has it.  A record whose status is not OPEN is never set
    back to OPEN by a cancellation or a cancel-all, nor by a placement under
    another id: through every sequence of operations in which no accepted
    placement reuses its id, it stays in the ledger with a status other than
    OPEN. *)
Theorem closed_order_stays_closed :
  forall ops a k e,
    dict_get k (GrvtRest._orders (GrvtAdapter.rest a)) = Some e ->
    Entry.status e <> OPEN ->
    (forall op, In op ops -> GrvtAdapter.placed_id op <> Some k) ->
    exists e',
      dict_get k (GrvtRest._orders (GrvtAdapter.rest (GrvtAdapter.exec_all ops a)))
      = Some e'
      /\ Entry.status e' <> OPEN.
Proof.
  intros ops a k e G S F.
  apply (exec_all_keeps (stays_closed k) (fun k' => k' <> k)) with (e := e);
    try assumption.
  - intros r e0 G0 S0. now exists e0.
  - intros r1 r2 r3 H1 H2 e0 G0 S0.
    destruct (H1 e0 G0 S0) as (e1 & G1 & S1). now apply (H2 e1).
  - intros. apply rest_cancel_stays_closed.
  - intros now_ms utcnow symbol side price size cid r N e0 G0 S0.
    unfold GrvtRest.place_limit_order. simpl.
    rewrite dict_get_set_other by congruence. now exists e0.
  - intros op k' I P E. subst k'. now apply (F op).
Qed.

Lemma closed_order_stays_closed_witness :
  exists e',
    dict_get "a"
      (GrvtRest._orders
         (GrvtAdapter.rest
            (GrvtAdapter.exec_all
               [ GrvtAdapter.CancelAll (fun _ => 1700000000003000%Z) None;
                 GrvtAdapter.Place 1700000000004 1700000000004000%Z "BTC-PERP"
                   BUY LIMIT 1 (Some 50000%Q) None;
                 GrvtAdapter.Cancel 1700000000005000%Z "a" "BTC-PERP" ]
               after_session)))
    = Some e'
    /\ Entry.status e' <> OPEN.
Proof.
  apply (closed_order_stays_closed _ after_session "a"
           (Entry.mk "a" (Some "a") "BTC-PERP" BUY LIMIT 50000 1 0
              CANCELED 1700000000000000%Z 1700000000002000%Z)).
  - reflexivity.
  - discriminate.
  - intros op I. simpl in I.
    destruct I as [<-|[<-|[<-|[]]]]; vm_compute; discriminate.
Defined.

(** C4 as stated fails: a placement that reuses the id of a cancelled order
    stores a fresh OPEN record under that id. *)
Lemma reused_id_reopens_order :
  option_map Entry.status
    (dict_get "a" (GrvtRest._orders (GrvtAdapter.rest after_session)))
  = Some CANCELED
  /\ option_map Entry.status
       (dict_get "a"
          (GrvtRest._orders
             (GrvtAdapter.rest
                (GrvtAdapter.exec
                   (GrvtAdapter.Place 1700000000004 1700000000004000%Z
                      "BTC-PERP" BUY LIMIT 1 (Some 50000%Q)
                      (with_client_order_id "a"))
                   after_session))))
     = Some OPEN.
Proof.
  split; reflexivity.
Qed.

(** ** Events *)

Lemma send_user_event_queue {Event} (ev : Event) ws :
  GrvtWebSocket._queue (GrvtWebSocket.send_user_event ev ws)
  = GrvtWebSocket._queue ws ++ [ev].
Proof.
  unfold GrvtWebSocket.send_user_event.
  destruct (GrvtWebSocket._connected ws); reflexivity.
Qed.

(** C8. In a ledger kept by the adapter, every operation pushes onto the
    event queue exactly the order records it returns, in order, and nothing
    when it raises.  These records have distinct ids, each is the record now
    stored under its id, and every ledger entry the operation changed is
    among them: one event per placed order and per cancelled order. *)
Theorem every_change_emits_one_event :
  forall op a,
    ledger_ok (GrvtRest._orders (GrvtAdapter.rest a)) ->
    exists reply a',
      GrvtAdapter.run op a = (reply, a')
      /\ GrvtWebSocket._queue (GrvtAdapter.websocket a')
         = GrvtWebSocket._queue (GrvtAdapter.websocket a) ++ reply_orders reply
      /\ NoDup (map OrderData.id (reply_orders reply))
      /\ (forall o,
            In o (reply_orders reply) ->
            exists e,
              dict_get (OrderData.id o) (GrvtRest._orders (GrvtAdapter.rest a'))
              = Some e
              /\ GrvtRest._to_order_data e = o)
      /\ (forall k,
            dict_get k (GrvtRest._orders (GrvtAdapter.rest a'))
            <> dict_get k (GrvtRest._orders (GrvtAdapter.rest a)) ->
            In k (map OrderData.id (reply_orders reply))).
Proof.
  intros op a OK.
  destruct op as [now_ms utcnow symbol side order_type amount price params
                 |utcnow order_id symbol|utcnow symbol];
    cbn [GrvtAdapter.run]; unfold GrvtAdapter.bind.
  - destruct (GrvtAdapter.limit_family order_type) eqn:L.
    + rewrite create_order_run by assumption.
      eexists. eexists. split; [reflexivity|].
      cbn [reply_orders GrvtAdapter.websocket GrvtAdapter.rest
           GrvtRest.with_orders GrvtRest._orders].
      split; [apply send_user_event_queue|].
      split; [repeat constructor; simpl; tauto|]. split.
      * intros o [<-|[]]. eexists. split; [|reflexivity].
        apply dict_get_set_same.
      * intros k D. left.
        destruct (string_dec k
                    (GrvtRest.order_id_for now_ms
                       (GrvtAdapter.params_client_order_id params)))
          as [->|N]; [reflexivity|].
        exfalso. apply D. now apply dict_get_set_other.
    + rewrite create_order_raises by assumption.
      eexists. eexists. split; [reflexivity|]. simpl.
      rewrite app_nil_r. repeat split; try constructor; tauto.
  - destruct (dict_get order_id (GrvtRest._orders (GrvtAdapter.rest a)))
      as [e|] eqn:G.
    + destruct (ledger_ok_get _ _ _ OK G) as [N I].
      rewrite (cancel_order_found utcnow order_id symbol e) by assumption.
      eexists. eexists. split; [reflexivity|].
      cbn [reply_orders GrvtAdapter.websocket GrvtAdapter.rest
           GrvtRest.with_orders GrvtRest._orders].
      split; [apply send_user_event_queue|].
      split; [repeat constructor; simpl; tauto|]. split.
      * intros o [<-|[]]. eexists. split; [|reflexivity].
        change (OrderData.id (GrvtRest._to_order_data (canceled utcnow e)))
          with (Entry.id e).
        rewrite I. apply dict_get_set_same.
      * intros k D. left.
        change (OrderData.id (GrvtRest._to_order_data (canceled utcnow e)))
          with (Entry.id e).
        rewrite I.
        destruct (string_dec k order_id) as [->|Nk]; [reflexivity|].
        exfalso. apply D. now apply dict_get_set_other.
    + rewrite cancel_order_missing by assumption.
      eexists. eexists. split; [reflexivity|]. simpl.
      rewrite app_nil_r. repeat split; try constructor; tauto.
  - rewrite cancel_all_orders_run by assumption.
    pose proof (open_entries_NoDup symbol a OK) as ND.
    rewrite <- (stamped_ids utcnow) in ND.
    eexists. eexists. split; [reflexivity|].
    cbn [reply_orders GrvtAdapter.websocket GrvtAdapter.rest
         GrvtRest.with_orders GrvtRest._orders].
    split; [apply emit_all_queue|].
    rewrite order_data_ids.
    split; [assumption|]. split.
    + intros o Io. apply in_map_iff in Io. destruct Io as (x & <- & Ix).
      exists x. split; [|reflexivity]. now apply store_all_get_in.
    + intros k D.
      destruct (in_dec string_dec k
                  (map Entry.id (stamped utcnow (open_entries symbol a))))
        as [I|N]; [assumption|].
      exfalso. apply D. now apply store_all_get_out.
Qed.

Lemma every_change_emits_one_event_witness :
  exists reply a',
    GrvtAdapter.run (GrvtAdapter.CancelAll (fun _ => 1700000000003000%Z) None)
      after_session = (reply, a')
    /\ GrvtWebSocket._queue (GrvtAdapter.websocket a')
       = GrvtWebSocket._queue (GrvtAdapter.websocket after_session)
         ++ reply_orders reply
    /\ NoDup (map OrderData.id (reply_orders reply)).
Proof.
  destruct (every_change_emits_one_event
              (GrvtAdapter.CancelAll (fun _ => 1700000000003000%Z) None)
              after_session after_session_ok) as (reply & a' & R & Q & N & _).
  exists reply, a'. tauto.
Defined.

(** ** Order ids *)

Lemma str_of_int_inj m n : str_of_int m = str_of_int n -> m = n.
Proof.
  unfold str_of_int. intros E.
  assert (I : Some (Z.to_int m) = Some (Z.to_int n)).
  { rewrite <- (NilEmpty.isi (Z.to_int m)), <- (NilEmpty.isi (Z.to_int n)).
    now rewrite E. }
  injection I as I.
  rewrite <- (DecimalZ.of_to m), <- (DecimalZ.of_to n). now rewrite I.
Qed.

(** Ids synthesized at different milliseconds differ. *)
Lemma synthesized_id_inj m n :
  GrvtRest.order_id_for m None = GrvtRest.order_id_for n None -> m = n.
Proof.
  unfold GrvtRest.order_id_for. simpl. intros E.
  injection E as E. now apply str_of_int_inj.
Qed.

Lemma placed_id_Some op k :
  GrvtAdapter.placed_id op = Some k ->
  exists now_ms utcnow symbol side order_type amount price params,
    op = GrvtAdapter.Place now_ms utcnow symbol side order_type amount price
           params
    /\ GrvtAdapter.limit_family order_type = true
    /\ k = GrvtRest.order_id_for now_ms
             (GrvtAdapter.params_client_order_id params).
Proof.
  destruct op as [now_ms utcnow symbol side order_type amount price params| |];
    simpl; try discriminate.
  destruct (GrvtAdapter.limit_family order_type) eqn:L; [|discriminate].
  intros [= <-]. repeat eexists. assumption.
Qed.

(** C1, as the code has it.  The id of a placement is the client's id when
    one is given (and not empty), else grvt_<millisecond>.  When the ids of a
    sequence of accepted placements are pairwise distinct and not yet in the
    ledger, every call returns its own id, the ledger grows by exactly these
    ids in order, every record that was there is untouched, and every
    returned order is the record stored under its id at the end. *)
Theorem distinct_ids_add_distinct_records :
  forall ops a ids,
    map GrvtAdapter.placed_id ops = map Some ids ->
    NoDup ids ->
    (forall k, In k ids ->
               dict_get k (GrvtRest._orders (GrvtAdapter.rest a)) = None) ->
    exists os a',
      GrvtAdapter.run_all ops a = (map (fun o => inr [o]) os, a')
      /\ map OrderData.id os = ids
      /\ dict_keys (GrvtRest._orders (GrvtAdapter.rest a'))
         = dict_keys (GrvtRest._orders (GrvtAdapter.rest a)) ++ ids
      /\ (forall k e,
            dict_get k (GrvtRest._orders (GrvtAdapter.rest a)) = Some e ->
            dict_get k (GrvtRest._orders (GrvtAdapter.rest a')) = Some e)
      /\ (forall o,
            In o os ->
            exists e,
              dict_get (OrderData.id o) (GrvtRest._orders (GrvtAdapter.rest a'))
              = Some e
              /\ GrvtRest._to_order_data e = o).
Proof.
  induction ops as [|op more IH]; intros a ids M ND F.
  - destruct ids; [|discriminate]. exists [], a. simpl.
    rewrite app_nil_r. repeat split; try tauto.
  - destruct ids as [|k ids']; [discriminate|].
    simpl in M. injection M as Pk M.
    inversion ND as [|? ? NI ND']; subst.
    apply placed_id_Some in Pk.
    destruct Pk as (now_ms & utcnow & symbol & side & order_type & amount
                    & price & params & -> & L & ->).
    set (cid := GrvtAdapter.params_client_order_id params) in *.
    set (k := GrvtRest.order_id_for now_ms cid) in *.
    set (e := GrvtRest.new_entry now_ms utcnow symbol side
                (decimal_or_zero price) amount cid).
    set (a1 := GrvtAdapter.mk
                 (GrvtRest.with_orders
                    (dict_set k e (GrvtRest._orders (GrvtAdapter.rest a)))
                    (GrvtAdapter.rest a))
                 (GrvtWebSocket.send_user_event (GrvtRest._to_order_data e)
                    (GrvtAdapter.websocket a))
                 (GrvtAdapter._order_callbacks a)).
    assert (Fk : dict_get k (GrvtRest._orders (GrvtAdapter.rest a)) = None)
      by (apply F; now left).
    assert (R : GrvtAdapter.run
                  (GrvtAdapter.Place now_ms utcnow symbol side order_type
                     amount price params) a
                = (inr [GrvtRest._to_order_data e], a1)).
    { cbn [GrvtAdapter.run]. unfold GrvtAdapter.bind.
      now rewrite create_order_run. }
    destruct (IH a1 ids' M ND') as (os & a' & RA & I & K & Old & New).
    { intros k' I'. unfold a1. simpl.
      rewrite dict_get_set_other.
      - apply F. now right.
      - intros ->. now apply NI. }
    exists (GrvtRest._to_order_data e :: os), a'.
    cbn [GrvtAdapter.run_all]. rewrite R, RA.
    split; [reflexivity|]. split; [simpl; now rewrite I|].
    assert (G1 : dict_get k (GrvtRest._orders (GrvtAdapter.rest a1)) = Some e)
      by (unfold a1; simpl; apply dict_get_set_same).
    split; [|split].
    + rewrite K. unfold a1. simpl. rewrite dict_keys_set, Fk.
      now rewrite <- app_assoc.
    + intros k0 e0 G0. apply Old. unfold a1. simpl.
      rewrite dict_get_set_other; [assumption|]. congruence.
    + intros o [<-|Io]; [|now apply New].
      exists e. split; [|reflexivity]. now apply Old.
Qed.

Lemma distinct_ids_add_distinct_records_witness :
  exists os a',
    GrvtAdapter.run_all
      [ GrvtAdapter.Place 1700000000004 1700000000004000%Z "BTC-PERP" BUY LIMIT
          1 (Some 50000%Q) None;
        GrvtAdapter.Place 1700000000005 1700000000005000%Z "BTC-PERP" SELL FOK
          2 (Some 51000%Q) None;
        GrvtAdapter.Place 1700000000005 1700000000005500%Z "BTC-PERP" SELL
          LIMIT 3 (Some 52000%Q) (with_client_order_id "b") ]
      after_session
    = (map (fun o => inr [o]) os, a')
    /\ map OrderData.id os = ["grvt_1700000000004"; "grvt_1700000000005"; "b"]
    /\ dict_keys (GrvtRest._orders (GrvtAdapter.rest a'))
       = dict_keys (GrvtRest._orders (GrvtAdapter.rest after_session))
         ++ ["grvt_1700000000004"; "grvt_1700000000005"; "b"].
Proof.
  destruct (distinct_ids_add_distinct_records
              [ GrvtAdapter.Place 1700000000004 1700000000004000%Z "BTC-PERP"
                  BUY LIMIT 1 (Some 50000%Q) None;
                GrvtAdapter.Place 1700000000005 1700000000005000%Z "BTC-PERP"
                  SELL FOK 2 (Some 51000%Q) None;
                GrvtAdapter.Place 1700000000005 1700000000005500%Z "BTC-PERP"
                  SELL LIMIT 3 (Some 52000%Q) (with_client_order_id "b") ]
              after_session
              ["grvt_1700000000004"; "grvt_1700000000005"; "b"])
    as (os & a' & R & I & K & _).
  - reflexivity.
  - repeat constructor; simpl; intuition discriminate.
  - intros k I. simpl in I.
    destruct I as [<-|[<-|[<-|[]]]]; reflexivity.
  - exists os, a'. tauto.
Defined.

(** C1 as stated fails: two placements without a client id within one
    millisecond get the same id, and the second replaces the record of the
    first. *)
Lemma same_millisecond_ids_collide :
  exists o1 a1 o2 a2,
    GrvtAdapter.create_order 1700000000000 1700000000000100%Z "BTC-PERP" BUY
      LIMIT 1 (Some 50000%Q) None GrvtAdapter.init = (inr o1, a1)
    /\ GrvtAdapter.create_order 1700000000000 1700000000000900%Z "BTC-PERP"
         SELL LIMIT 2 (Some 51000%Q) None a1 = (inr o2, a2)
    /\ OrderData.id o1 = OrderData.id o2
    /\ dict_keys (GrvtRest._orders (GrvtAdapter.rest a2)) = [OrderData.id o2]
    /\ option_map GrvtRest._to_order_data
         (dict_get (OrderData.id o1) (GrvtRest._orders (GrvtAdapter.rest a2)))
       = Some o2
    /\ o1 <> o2.
Proof.
  do 4 eexists.
  split; [reflexivity|]. split; [reflexivity|].
  split; [reflexivity|]. split; [reflexivity|]. split; [reflexivity|].
  discriminate.
Qed.

(** ** The consumer *)

Section Consumer.
Context {Event : Type}.
Local Open Scope nat_scope.
Implicit Types (ws : GrvtWebSocket.t Event) (data ev : Event).
Implicit Types (cbs pending : list (GrvtWebSocket.Callback Event)).

Lemma run_consumer_add n m ws :
  GrvtWebSocket.run_consumer (n + m) ws
  = match GrvtWebSocket.run_consumer n ws with
    | Some ws' => GrvtWebSocket.run_consumer m ws'
    | None => None
    end.
Proof.
  revert ws. induction n as [|n IH]; intros ws; simpl; [reflexivity|].
  destruct (GrvtWebSocket.consume_step ws); [apply IH|reflexivity].
Qed.

Lemma failures_cons cb cbs data :
  GrvtWebSocket.failures (cb :: cbs) data
  = match GrvtWebSocket.cb_call cb data with
    | Raised => (GrvtWebSocket.cb_name cb, data) :: GrvtWebSocket.failures cbs data
    | Returned => GrvtWebSocket.failures cbs data
    end.
Proof.
  unfold GrvtWebSocket.failures. simpl.
  destruct (GrvtWebSocket.cb_call cb data); reflexivity.
Qed.

(** Inside the [for] loop, the [k]-th step calls the [k]-th pending
    subscriber. *)
Lemma run_pending_partial k :
  forall pending cbs con q data inv lg,
    k <= List.length pending ->
    GrvtWebSocket.run_consumer k
      (GrvtWebSocket.mk cbs con q
         (Some (GrvtWebSocket.Dispatching data pending)) inv lg)
    = Some (GrvtWebSocket.mk cbs con q
              (Some (GrvtWebSocket.Dispatching data (skipn k pending)))
              (inv ++ GrvtWebSocket.fan_out (firstn k pending) data)
              (lg ++ GrvtWebSocket.failures (firstn k pending) data)).
Proof.
  induction k as [|k IH]; intros pending cbs con q data inv lg L.
  - simpl. now rewrite !app_nil_r.
  - destruct pending as [|cb more]; [simpl in L; lia|].
    simpl in L. cbn [firstn skipn GrvtWebSocket.run_consumer].
    rewrite failures_cons.
    unfold GrvtWebSocket.consume_step.
    cbn [GrvtWebSocket._consumer_task GrvtWebSocket._callbacks
         GrvtWebSocket._connected GrvtWebSocket._queue GrvtWebSocket.invoked
         GrvtWebSocket.logged].
    destruct (GrvtWebSocket.cb_call cb data) eqn:C;
      rewrite IH by lia; unfold GrvtWebSocket.fan_out; simpl; rewrite C;
      now rewrite <- !app_assoc.
Qed.

Lemma run_pending pending cbs con q data inv lg :
  GrvtWebSocket.run_consumer (List.length pending + 1)
    (GrvtWebSocket.mk cbs con q
       (Some (GrvtWebSocket.Dispatching data pending)) inv lg)
  = Some (GrvtWebSocket.mk cbs con q (Some GrvtWebSocket.Waiting)
            (inv ++ GrvtWebSocket.fan_out pending data)
            (lg ++ GrvtWebSocket.failures pending data)).
Proof.
  rewrite run_consumer_add, run_pending_partial by lia.
  rewrite skipn_all, firstn_all. reflexivity.
Qed.

(** One turn of the [while] loop on a non-empty queue. *)
Lemma run_head cbs q data inv lg :
  GrvtWebSocket.run_consumer (List.length cbs + 2)
    (GrvtWebSocket.mk cbs true (data :: q) (Some GrvtWebSocket.Waiting) inv lg)
  = Some (GrvtWebSocket.mk cbs true q (Some GrvtWebSocket.Waiting)
            (inv ++ GrvtWebSocket.fan_out cbs data)
            (lg ++ GrvtWebSocket.failures cbs data)).
Proof.
  replace (List.length cbs + 2) with (S (List.length cbs + 1)) by lia.
  cbn [GrvtWebSocket.run_consumer]. unfold GrvtWebSocket.consume_step at 1.
  cbn [GrvtWebSocket._consumer_task GrvtWebSocket._callbacks
       GrvtWebSocket._connected GrvtWebSocket._queue GrvtWebSocket.invoked
       GrvtWebSocket.logged].
  apply run_pending.
Qed.

(** The consumer empties the queue, event after event. *)
Lemma run_drain q :
  forall cbs inv lg,
    GrvtWebSocket.run_consumer (List.length q * (List.length cbs + 2))
      (GrvtWebSocket.mk cbs true q (Some GrvtWebSocket.Waiting) inv lg)
    = Some (GrvtWebSocket.mk cbs true [] (Some GrvtWebSocket.Waiting)
              (inv ++ flat_map (GrvtWebSocket.fan_out cbs) q)
              (lg ++ flat_map (GrvtWebSocket.failures cbs) q)).
Proof.
  induction q as [|data q IH]; intros cbs inv lg.
  - simpl. now rewrite !app_nil_r.
  - cbn [List.length Nat.mul flat_map].
    rewrite run_consumer_add, run_head, IH.
    now rewrite <- !app_assoc.
Qed.

Lemma subscribe_all_run cbs ws :
  GrvtWebSocket.subscribe_all cbs ws
  = GrvtWebSocket.mk (GrvtWebSocket._callbacks ws ++ cbs)
      (GrvtWebSocket._connected ws) (GrvtWebSocket._queue ws)
      (GrvtWebSocket._consumer_task ws) (GrvtWebSocket.invoked ws)
      (GrvtWebSocket.logged ws).
Proof.
  revert ws. induction cbs as [|cb more IH]; intros ws.
  - simpl. rewrite app_nil_r. now destruct ws.
  - change (GrvtWebSocket.subscribe_all (cb :: more) ws)
      with (GrvtWebSocket.subscribe_all more
              (GrvtWebSocket.subscribe_user_stream cb ws)).
    rewrite IH. simpl. now rewrite <- app_assoc.
Qed.

(** The invariant of the connection state. *)
Lemma consistent_init : GrvtWebSocket.consistent (@GrvtWebSocket.init Event).
Proof. intros _. reflexivity. Qed.

Lemma consistent_connect ws : GrvtWebSocket.consistent (GrvtWebSocket.connect ws).
Proof. intros H. discriminate. Qed.

Lemma consistent_disconnect ws :
  GrvtWebSocket.consistent (GrvtWebSocket.disconnect ws).
Proof. intros _. reflexivity. Qed.

Lemma consistent_subscribe cb ws :
  GrvtWebSocket.consistent ws ->
  GrvtWebSocket.consistent (GrvtWebSocket.subscribe_user_stream cb ws).
Proof. intros H. exact H. Qed.

Lemma consistent_send ev ws :
  GrvtWebSocket.consistent ws ->
  GrvtWebSocket.consistent (GrvtWebSocket.send_user_event ev ws).
Proof.
  intros _ C. unfold GrvtWebSocket.send_user_event in C.
  destruct (GrvtWebSocket._connected ws) eqn:Cn; simpl in C; congruence.
Qed.

Lemma consistent_step ws ws' :
  GrvtWebSocket.consistent ws ->
  GrvtWebSocket.consume_step ws = Some ws' ->
  GrvtWebSocket.consistent ws'.
Proof.
  unfold GrvtWebSocket.consistent, GrvtWebSocket.consume_step.
  intros H S C.
  destruct (GrvtWebSocket._connected ws) eqn:Cn.
  - destruct (GrvtWebSocket._consumer_task ws) as [[|data [|cb pending]| |]|];
      try discriminate.
    + destruct (GrvtWebSocket._queue ws); [discriminate|].
      injection S as <-. simpl in C. congruence.
    + injection S as <-. simpl in C. congruence.
    + destruct (GrvtWebSocket.cb_call cb data); injection S as <-;
        simpl in C; congruence.
    + injection S as <-. simpl in C. congruence.
  - rewrite H in S by reflexivity. discriminate.
Qed.

(** C6. Subscribers [cbs] are registered in this order on a connected
    socket whose consumer waits on an empty queue, and an event [E] is
    emitted.  The consumer then takes [E] and calls the subscribers one at a
    time in registration order: after its first [1 + k] steps exactly the
    first [k] have been called, each once, with [E].  A subscriber that
    raises is logged and the next ones are still called.  After the last one
    the consumer is back at the head of its loop, connected, waiting for the
    next event. *)
Theorem subscribers_called_once_in_order :
  forall ws0 cbs E,
    GrvtWebSocket._callbacks ws0 = [] ->
    GrvtWebSocket._connected ws0 = true ->
    GrvtWebSocket._consumer_task ws0 = Some GrvtWebSocket.Waiting ->
    GrvtWebSocket._queue ws0 = [] ->
    let ws :=
      GrvtWebSocket.send_user_event E (GrvtWebSocket.subscribe_all cbs ws0) in
    (forall k,
       k <= List.length cbs ->
       exists wsk,
         GrvtWebSocket.run_consumer (1 + k) ws = Some wsk
         /\ GrvtWebSocket.invoked wsk
            = GrvtWebSocket.invoked ws0
              ++ GrvtWebSocket.fan_out (firstn k cbs) E)
    /\ exists ws',
         GrvtWebSocket.run_consumer (List.length cbs + 2) ws = Some ws'
         /\ GrvtWebSocket.invoked ws'
            = GrvtWebSocket.invoked ws0 ++ GrvtWebSocket.fan_out cbs E
         /\ GrvtWebSocket.logged ws'
            = GrvtWebSocket.logged ws0 ++ GrvtWebSocket.failures cbs E
         /\ GrvtWebSocket._consumer_task ws' = Some GrvtWebSocket.Waiting
         /\ GrvtWebSocket._connected ws' = true
         /\ GrvtWebSocket._queue ws' = []
         /\ GrvtWebSocket._callbacks ws' = cbs.
Proof.
  intros ws0 cbs E Hc Hn Ht Hq ws. subst ws.
  rewrite subscribe_all_run.
  unfold GrvtWebSocket.send_user_event.
  cbn [GrvtWebSocket._connected GrvtWebSocket._callbacks GrvtWebSocket._queue
       GrvtWebSocket._consumer_task GrvtWebSocket.invoked GrvtWebSocket.logged].
  rewrite Hn, Hc, Hq, Ht. cbn [negb app]. split.
  - intros k Lk. eexists.
    cbn [Nat.add GrvtWebSocket.run_consumer].
    unfold GrvtWebSocket.consume_step at 1.
    cbn [GrvtWebSocket._connected GrvtWebSocket._callbacks GrvtWebSocket._queue
         GrvtWebSocket._consumer_task GrvtWebSocket.invoked
         GrvtWebSocket.logged].
    cbn [app]. rewrite run_pending_partial by assumption.
    split; reflexivity.
  - eexists. split; [apply run_head|]. simpl. tauto.
Qed.
End Consumer.

Lemma subscribers_called_once_in_order_witness :
  exists ws',
    GrvtWebSocket.run_consumer 5
      (GrvtWebSocket.send_user_event "E"
         (GrvtWebSocket.subscribe_all [subscriber_A; subscriber_B; subscriber_C]
            (GrvtWebSocket.connect GrvtWebSocket.init)))
    = Some ws'
    /\ GrvtWebSocket.invoked ws'
       = [(1%nat, "E", Returned); (2%nat, "E", Raised); (3%nat, "E", Returned)]
    /\ GrvtWebSocket.logged ws' = [(2%nat, "E")]
    /\ GrvtWebSocket._consumer_task ws' = Some GrvtWebSocket.Waiting.
Proof.
  destruct (subscribers_called_once_in_order
              (GrvtWebSocket.connect GrvtWebSocket.init)
              [subscriber_A; subscriber_B; subscriber_C] "E")
    as [_ (ws' & R & I & L & T & _)]; try reflexivity.
  exists ws'. repeat split; assumption.
Defined.

(** ** Emitting while disconnected *)

Section Reconnect.
Context {Event : Type}.
Local Open Scope nat_scope.

(** When no [disconnect] is in progress: on a disconnected socket, emitting
    [E] sets the connection to connected, starts the consumer, and puts [E]
    at the back of the queue; the subscribers are unchanged.  The consumer
    then runs through the queue and ends by delivering [E] to every
    subscriber, in order. *)
Theorem emit_reconnects_and_delivers :
  forall (ws : GrvtWebSocket.t Event) (E : Event),
    GrvtWebSocket.consistent ws ->
    GrvtWebSocket._connected ws = false ->
    let ws1 := GrvtWebSocket.send_user_event E ws in
    let cbs := GrvtWebSocket._callbacks ws in
    GrvtWebSocket._connected ws1 = true
    /\ GrvtWebSocket._consumer_task ws1 = Some GrvtWebSocket.Waiting
    /\ GrvtWebSocket._queue ws1 = GrvtWebSocket._queue ws ++ [E]
    /\ GrvtWebSocket._callbacks ws1 = cbs
    /\ exists ws2,
         GrvtWebSocket.run_consumer
           (List.length (GrvtWebSocket._queue ws1) * (List.length cbs + 2)) ws1
         = Some ws2
         /\ GrvtWebSocket.invoked ws2
            = GrvtWebSocket.invoked ws
              ++ flat_map (GrvtWebSocket.fan_out cbs) (GrvtWebSocket._queue ws)
              ++ GrvtWebSocket.fan_out cbs E
         /\ GrvtWebSocket._queue ws2 = []
         /\ GrvtWebSocket._connected ws2 = true
         /\ GrvtWebSocket._consumer_task ws2 = Some GrvtWebSocket.Waiting.
Proof.
  intros ws E Inv Off ws1 cbs. subst ws1 cbs.
  pose proof (Inv Off) as NoTask.
  destruct ws as [cbs con q task inv lg]. simpl in Off, NoTask. subst con task.
  unfold GrvtWebSocket.send_user_event. simpl.
  repeat (split; [reflexivity|]).
  eexists. split; [apply run_drain|]. simpl.
  rewrite flat_map_app. simpl. rewrite app_nil_r. tauto.
Qed.
End Reconnect.

(** *** Emitting while a disconnect is in progress *)

Section Race.
Context {Event : Type}.
Implicit Types (ws : GrvtWebSocket.t Event) (E : Event).

(** The two halves of [disconnect], with the end of the cancelled consumer
    between them and nothing else, make up [disconnect]. *)
Lemma disconnect_in_two_halves ws :
  exists ws1,
    (ws1 = GrvtWebSocket.disconnect_begin ws
     \/ GrvtWebSocket.consume_step (GrvtWebSocket.disconnect_begin ws)
        = Some ws1)
    /\ GrvtWebSocket.disconnect_end ws1 = Some (GrvtWebSocket.disconnect ws).
Proof.
  destruct ws as [cbs con q [[|data pending| |]|] inv lg];
    unfold GrvtWebSocket.disconnect_begin; simpl;
    try (eexists; split; [right; reflexivity|reflexivity]);
    eexists; (split; [left; reflexivity|reflexivity]).
Qed.

(** An emission that runs while [disconnect] is suspended on the consumer
    task it has just cancelled: [send_user_event] sees the flag down and
    calls [connect], which sets the flag but starts no consumer because the
    cancelled task is not done yet.  The cancelled consumer then ends
    without taking the event, [disconnect] resumes and forgets the task.
    The socket is left connected, without a consumer, with the event in the
    queue; nothing is delivered, and no later emission starts a consumer
    either. *)
Lemma emit_inside_disconnect ws E k :
  GrvtWebSocket._consumer_task ws = Some k ->
  GrvtWebSocket.done k = false ->
  let ws1 :=
    GrvtWebSocket.send_user_event E (GrvtWebSocket.disconnect_begin ws) in
  GrvtWebSocket._connected ws1 = true
  /\ GrvtWebSocket._consumer_task ws1 = Some GrvtWebSocket.Cancelling
  /\ exists ws2 ws3,
       GrvtWebSocket.consume_step ws1 = Some ws2
       /\ GrvtWebSocket.disconnect_end ws2 = Some ws3
       /\ GrvtWebSocket._connected ws3 = true
       /\ GrvtWebSocket._consumer_task ws3 = None
       /\ GrvtWebSocket._queue ws3 = GrvtWebSocket._queue ws ++ [E]
       /\ GrvtWebSocket.invoked ws3 = GrvtWebSocket.invoked ws
       /\ GrvtWebSocket.consume_step ws3 = None
       /\ forall E',
            GrvtWebSocket._consumer_task
              (GrvtWebSocket.send_user_event E' ws3) = None
            /\ GrvtWebSocket.consume_step
                 (GrvtWebSocket.send_user_event E' ws3) = None.
Proof.
  intros T D ws1. subst ws1.
  destruct ws as [cbs con q task inv lg]. simpl in T. subst task.
  unfold GrvtWebSocket.send_user_event, GrvtWebSocket.disconnect_begin.
  simpl. rewrite D. simpl.
  split; [reflexivity|]. split; [reflexivity|].
  eexists. eexists. split; [reflexivity|]. split; [reflexivity|].
  simpl. repeat split.
Qed.
End Race.


Lemma dropped_socket_consistent : GrvtWebSocket.consistent dropped_socket.
Proof.
  intros _. reflexivity.
Defined.

Lemma emit_reconnects_and_delivers_witness :
  GrvtWebSocket._connected (GrvtWebSocket.send_user_event "E1" dropped_socket)
  = true
  /\ exists ws2,
       GrvtWebSocket.run_consumer 8
         (GrvtWebSocket.send_user_event "E1" dropped_socket) = Some ws2
       /\ GrvtWebSocket.invoked ws2
          = [(1%nat, "E0", Returned); (2%nat, "E0", Raised);
             (1%nat, "E1", Returned); (2%nat, "E1", Raised)]
       /\ GrvtWebSocket._queue ws2 = [].
Proof.
  destruct (emit_reconnects_and_delivers dropped_socket "E1"
              dropped_socket_consistent eq_refl)
    as (C & _ & _ & _ & ws2 & R & I & Q & _).
  split; [exact C|]. exists ws2. repeat split; assumption.
Defined.

(** * Further properties of the adapter *)

(** ** Queries on the ledger *)

Lemma filter_none {A} (p : A -> bool) (l : list A) :
  (forall x, In x l -> p x = false) -> filter p l = [].
Proof.
  induction l as [|x r IH]; intros H; simpl; [reflexivity|].
  rewrite (H x) by now left. apply IH. intros y I. apply H. now right.
Qed.

Lemma filter_all {A} (p : A -> bool) (l : list A) :
  (forall x, In x l -> p x = true) -> filter p l = l.
Proof.
  induction l as [|x r IH]; intros H; simpl; [reflexivity|].
  rewrite (H x) by now left. f_equal. apply IH. intros y I. apply H. now right.
Qed.

Lemma get_open_orders_run symbol a :
  GrvtAdapter.get_open_orders symbol a
  = (inr (map GrvtRest._to_order_data (open_entries symbol a)), a).
Proof.
  unfold GrvtAdapter.get_open_orders, GrvtAdapter.in_rest.
  now rewrite adapter_eta.
Qed.

(** X1. On a ledger kept by the adapter, [get_open_orders(symbol)] changes
    nothing and returns, once each, exactly the records that are OPEN and of
    the symbol (when one is given); no other status is returned. *)
Theorem get_open_orders_exactly_open :
  forall symbol a,
    ledger_ok (GrvtRest._orders (GrvtAdapter.rest a)) ->
    exists found,
      GrvtAdapter.get_open_orders symbol a = (inr found, a)
      /\ NoDup (map OrderData.id found)
      /\ (forall o, In o found -> OrderData.status o = OPEN)
      /\ (forall o,
            In o found <->
            exists e,
              dict_get (OrderData.id o)
                (GrvtRest._orders (GrvtAdapter.rest a)) = Some e
              /\ targeted symbol e
              /\ o = GrvtRest._to_order_data e).
Proof.
  intros symbol a OK. eexists. split; [apply get_open_orders_run|].
  split; [|split].
  - rewrite order_data_ids. now apply open_entries_NoDup.
  - intros o I. apply in_map_iff in I. destruct I as (e & <- & I).
    apply (open_entries_In symbol a e OK) in I. apply I.
  - intros o. split.
    + intros I. apply in_map_iff in I. destruct I as (e & <- & I).
      apply (open_entries_In symbol a e OK) in I. exists e. tauto.
    + intros (e & G & T & ->). apply in_map.
      apply (open_entries_In symbol a e OK). tauto.
Qed.

Lemma get_open_orders_exactly_open_witness :
  exists found,
    GrvtAdapter.get_open_orders (Some "ETH-PERP") after_session
    = (inr found, after_session)
    /\ NoDup (map OrderData.id found)
    /\ (forall o, In o found -> OrderData.status o = OPEN).
Proof.
  destruct (get_open_orders_exactly_open (Some "ETH-PERP") after_session
              after_session_ok) as (found & R & N & S & _).
  exists found. tauto.
Defined.

(** What [cancel_all_orders] leaves under each key. *)
Lemma swept_ledger_get utcnow symbol a k e :
  ledger_ok (GrvtRest._orders (GrvtAdapter.rest a)) ->
  dict_get k (GrvtRest._orders (GrvtAdapter.rest a)) = Some e ->
  exists e',
    dict_get k (store_all (stamped utcnow (open_entries symbol a))
                  (GrvtRest._orders (GrvtAdapter.rest a))) = Some e'
    /\ GrvtRest.is_open_for symbol e' = false.
Proof.
  intros OK G. destruct (ledger_ok_get _ _ _ OK G) as [_ Ik].
  pose proof (open_entries_NoDup symbol a OK) as ND.
  destruct (GrvtRest.is_open_for symbol e) eqn:O.
  - assert (Ie : In e (open_entries symbol a)).
    { apply (open_entries_In symbol a e OK). rewrite Ik.
      split; [assumption|]. now apply is_open_for_targeted. }
    destruct (stamped_In e utcnow _ Ie) as [i Hi].
    exists (canceled (utcnow i) e). split.
    + rewrite <- Ik, <- (canceled_id (utcnow i) e).
      apply store_all_get_in; [now rewrite stamped_ids|assumption].
    + reflexivity.
  - exists e. split; [|assumption].
    rewrite store_all_get_out; [assumption|].
    rewrite stamped_ids. intros I. apply in_map_iff in I.
    destruct I as (e' & E & I).
    apply (open_entries_In symbol a e' OK) in I. destruct I as [G' T'].
    rewrite E, G in G'. injection G' as <-.
    apply is_open_for_targeted in T'. congruence.
Qed.

(** X2. On a ledger kept by the adapter, right after [cancel_all(symbol)]
    there is no open order left for that symbol: [get_open_orders(symbol)]
    returns the empty list. *)
Theorem cancel_all_orders_leaves_none_open :
  forall utcnow symbol a,
    ledger_ok (GrvtRest._orders (GrvtAdapter.rest a)) ->
    exists cancelled a',
      GrvtAdapter.cancel_all_orders utcnow symbol a = (inr cancelled, a')
      /\ GrvtAdapter.get_open_orders symbol a' = (inr [], a').
Proof.
  intros utcnow symbol a OK.
  eexists. eexists. split; [apply cancel_all_orders_run; exact OK|].
  rewrite get_open_orders_run. f_equal. f_equal.
  unfold open_entries at 1.
  cbn [GrvtAdapter.rest GrvtRest.with_orders GrvtRest._orders].
  set (d := GrvtRest._orders (GrvtAdapter.rest a)).
  set (d' := store_all (stamped utcnow (open_entries symbol a)) d).
  assert (OK' : ledger_ok d').
  { apply ledger_ok_store_all; [assumption|].
    intros x Ix. apply In_stamped in Ix. destruct Ix as (e & i & Ie & ->).
    apply (open_entries_In symbol a e OK) in Ie. destruct Ie as [G _].
    rewrite canceled_id. eapply ledger_ok_get; eassumption. }
  assert (K : dict_keys d' = dict_keys d).
  { apply store_all_keys. intros x Ix.
    apply In_stamped in Ix. destruct Ix as (e & i & Ie & ->).
    apply (open_entries_In symbol a e OK) in Ie. destruct Ie as [G _].
    rewrite canceled_id. eapply dict_get_Some_key; eassumption. }
  rewrite filter_none; [reflexivity|].
  intros e' I. pose proof (ledger_ok_value_get d' e' OK' I) as G'.
  assert (Ik : In (Entry.id e') (dict_keys d)).
  { rewrite <- K. eapply dict_get_Some_key; eassumption. }
  destruct (dict_get (Entry.id e') d) as [e|] eqn:G.
  - destruct (swept_ledger_get utcnow symbol a _ e OK G) as (e2 & G2 & C).
    fold d in G2. fold d' in G2. congruence.
  - apply dict_get_None in G. contradiction.
Qed.

Lemma cancel_all_orders_leaves_none_open_witness :
  exists cancelled a',
    GrvtAdapter.cancel_all_orders (fun _ => 1700000000003000%Z) None
      after_session = (inr cancelled, a')
    /\ GrvtAdapter.get_open_orders None a' = (inr [], a').
Proof.
  apply (cancel_all_orders_leaves_none_open (fun _ => 1700000000003000%Z) None
           after_session after_session_ok).
Defined.

Lemma get_order_lookup order_id symbol a :
  ledger_ok (GrvtRest._orders (GrvtAdapter.rest a)) ->
  GrvtAdapter.get_order order_id symbol a
  = match dict_get order_id (GrvtRest._orders (GrvtAdapter.rest a)) with
    | Some e => (inr (GrvtRest._to_order_data e), a)
    | None => (inl (GrvtAdapter.OrderNotFound order_id), a)
    end.
Proof.
  intros OK.
  unfold GrvtAdapter.get_order, GrvtAdapter.bind, GrvtAdapter.in_rest.
  rewrite adapter_eta. unfold GrvtRest.get_open_orders.
  fold (open_entries (Some symbol) a).
  destruct (find (fun order => String.eqb (OrderData.id order) order_id)
              (map GrvtRest._to_order_data (open_entries (Some symbol) a)))
    as [o|] eqn:F.
  - apply find_some in F. destruct F as [I E].
    apply String.eqb_eq in E. apply in_map_iff in I.
    destruct I as (e & <- & I).
    apply (open_entries_In (Some symbol) a e OK) in I. destruct I as [G _].
    change (OrderData.id (GrvtRest._to_order_data e)) with (Entry.id e) in E.
    rewrite E in G. now rewrite G.
  - destruct (dict_get order_id (GrvtRest._orders (GrvtAdapter.rest a)));
      reflexivity.
Qed.

(** X3. On a ledger kept by the adapter, [get_order(id, symbol)] changes
    nothing; it returns the record stored under [id] whatever its status and
    whatever [symbol] is passed, and raises OrderNotFound exactly when the id
    is not in the ledger. *)
Theorem get_order_finds_any_known_order :
  forall order_id symbol a,
    ledger_ok (GrvtRest._orders (GrvtAdapter.rest a)) ->
    (forall e,
       dict_get order_id (GrvtRest._orders (GrvtAdapter.rest a)) = Some e ->
       GrvtAdapter.get_order order_id symbol a
       = (inr (GrvtRest._to_order_data e), a))
    /\ (dict_get order_id (GrvtRest._orders (GrvtAdapter.rest a)) = None ->
        GrvtAdapter.get_order order_id symbol a
        = (inl (GrvtAdapter.OrderNotFound order_id), a)).
Proof.
  intros order_id symbol a OK.
  rewrite get_order_lookup by assumption.
  split; [intros e G|intros G]; now rewrite G.
Qed.

Lemma get_order_finds_any_known_order_witness :
  (exists o,
     GrvtAdapter.get_order "a" "ETH-PERP" after_session = (inr o, after_session)
     /\ OrderData.status o = CANCELED /\ OrderData.symbol o = "BTC-PERP")
  /\ GrvtAdapter.get_order "b" "BTC-PERP" after_session
     = (inl (GrvtAdapter.OrderNotFound "b"), after_session).
Proof.
  destruct (get_order_finds_any_known_order "a" "ETH-PERP" after_session
              after_session_ok) as [F _].
  destruct (get_order_finds_any_known_order "b" "BTC-PERP" after_session
              after_session_ok) as [_ N].
  split.
  - eexists. split; [apply F; reflexivity|]. split; reflexivity.
  - apply N. reflexivity.
Defined.

(** X4. On a ledger kept by the adapter, an order that was just placed is
    returned unchanged by [get_order] under the id that [create_order]
    returned, whatever symbol the lookup is given. *)
Theorem placed_order_can_be_looked_up :
  forall now_ms utcnow symbol side order_type amount price params a symbol',
    ledger_ok (GrvtRest._orders (GrvtAdapter.rest a)) ->
    GrvtAdapter.limit_family order_type = true ->
    exists o a',
      GrvtAdapter.create_order now_ms utcnow symbol side order_type amount
        price params a = (inr o, a')
      /\ GrvtAdapter.get_order (OrderData.id o) symbol' a' = (inr o, a').
Proof.
  intros now_ms utcnow symbol side order_type amount price params a symbol'
    OK L.
  eexists. eexists. split; [apply create_order_run; exact L|].
  rewrite get_order_lookup.
  - cbn [GrvtAdapter.rest GrvtRest.with_orders GrvtRest._orders].
    change (OrderData.id (GrvtRest._to_order_data ?e)) with (Entry.id e).
    now rewrite dict_get_set_same.
  - cbn [GrvtAdapter.rest GrvtRest.with_orders GrvtRest._orders].
    apply ledger_ok_set; [assumption| |reflexivity].
    apply order_id_for_nonempty.
Qed.

Lemma placed_order_can_be_looked_up_witness :
  exists o a',
    GrvtAdapter.create_order 1700000000004 1700000000004000%Z "SOL-PERP" BUY
      FOK 5 (Some 150%Q) None after_session = (inr o, a')
    /\ GrvtAdapter.get_order (OrderData.id o) "BTC-PERP" a' = (inr o, a').
Proof.
  apply (placed_order_can_be_looked_up 1700000000004 1700000000004000%Z
           "SOL-PERP" BUY FOK 5 (Some 150%Q) None after_session "BTC-PERP"
           after_session_ok).
  reflexivity.
Defined.

(** X5. On a ledger kept by the adapter, an order that [cancel_order] has
    cancelled stays retrievable: [get_order] under the same id returns the
    very record that the cancellation returned, with status CANCELED. *)
Theorem cancelled_order_can_be_looked_up :
  forall utcnow order_id symbol symbol' a o a',
    ledger_ok (GrvtRest._orders (GrvtAdapter.rest a)) ->
    GrvtAdapter.cancel_order utcnow order_id symbol a = (inr o, a') ->
    OrderData.status o = CANCELED
    /\ GrvtAdapter.get_order order_id symbol' a' = (inr o, a').
Proof.
  intros utcnow order_id symbol symbol' a o a' OK R.
  destruct (dict_get order_id (GrvtRest._orders (GrvtAdapter.rest a)))
    as [e|] eqn:G.
  - destruct (ledger_ok_get _ _ _ OK G) as [N I].
    rewrite (cancel_order_found utcnow order_id symbol e) in R by assumption.
    injection R as <- <-. split; [reflexivity|].
    rewrite get_order_lookup.
    + cbn [GrvtAdapter.rest GrvtRest.with_orders GrvtRest._orders].
      now rewrite dict_get_set_same.
    + cbn [GrvtAdapter.rest GrvtRest.with_orders GrvtRest._orders].
      apply ledger_ok_set; assumption.
  - rewrite cancel_order_missing in R by assumption. discriminate.
Qed.

Lemma cancelled_order_can_be_looked_up_witness :
  exists o a',
    GrvtAdapter.cancel_order 1700000000003000%Z "grvt_1700000000001"
      "ETH-PERP" after_session = (inr o, a')
    /\ OrderData.status o = CANCELED
    /\ GrvtAdapter.get_order "grvt_1700000000001" "" a' = (inr o, a').
Proof.
  eexists. eexists. split; [reflexivity|].
  apply (cancelled_order_can_be_looked_up 1700000000003000%Z
           "grvt_1700000000001" "ETH-PERP" "" after_session _ _
           after_session_ok).
  reflexivity.
Defined.

(** ** Order history *)

Lemma in_history_None item : GrvtAdapter.in_history None item = true.
Proof. reflexivity. Qed.

Lemma history_ids a since limit :
  map OrderData.id (GrvtAdapter.get_order_history None since limit a)
  = map Entry.id (dict_values (GrvtRest._orders (GrvtAdapter.rest a))).
Proof.
  unfold GrvtAdapter.get_order_history.
  rewrite filter_all by (intros; apply in_history_None).
  apply order_data_ids.
Qed.

Lemma existsb_keys {V} (k : string) (d : dict V) :
  existsb (String.eqb k) (dict_keys d)
  = match dict_get k d with Some _ => true | None => false end.
Proof.
  induction d as [|[k0 v0] r IH]; simpl; [reflexivity|].
  destruct (String.eqb k k0); [reflexivity|exact IH].
Qed.

Lemma ids_added_cons known op more :
  ids_added known (op :: more)
  = ids_added known [op] ++ ids_added (known ++ ids_added known [op]) more.
Proof.
  simpl. destruct (GrvtAdapter.placed_id op) as [k|].
  - destruct (existsb (String.eqb k) known); simpl;
      now rewrite ?app_nil_r.
  - simpl. now rewrite app_nil_r.
Qed.

Lemma ids_added_covers known ops op k :
  In op ops -> GrvtAdapter.placed_id op = Some k ->
  In k (known ++ ids_added known ops).
Proof.
  revert known. induction ops as [|op0 more IH]; intros known I P; [destruct I|].
  destruct I as [->|I].
  - simpl. rewrite P. destruct (existsb (String.eqb k) known) eqn:E.
    + apply in_or_app. left. apply existsb_exists in E.
      destruct E as (x & Ix & Ex). apply String.eqb_eq in Ex. now subst.
    + apply in_or_app. right. now left.
  - simpl. destruct (GrvtAdapter.placed_id op0) as [k0|];
      [destruct (existsb (String.eqb k0) known)|]; try now apply IH.
    specialize (IH (known ++ [k0]) I P).
    rewrite <- app_assoc in IH. exact IH.
Qed.

(** The keys of the ledger after one operation. *)
Lemma exec_keys op a :
  dict_keys (GrvtRest._orders (GrvtAdapter.rest (GrvtAdapter.exec op a)))
  = dict_keys (GrvtRest._orders (GrvtAdapter.rest a))
    ++ ids_added (dict_keys (GrvtRest._orders (GrvtAdapter.rest a))) [op].
Proof.
  cbn [ids_added]. destruct (GrvtAdapter.placed_id op) as [k|] eqn:P.
  - apply placed_id_Some in P.
    destruct P as (now_ms & utcnow & symbol & side & order_type & amount
                   & price & params & -> & L & ->).
    unfold GrvtAdapter.exec. cbn [GrvtAdapter.run]. unfold GrvtAdapter.bind.
    rewrite create_order_run by assumption.
    unfold GrvtAdapter.ret.
    cbn [snd GrvtAdapter.rest GrvtRest.with_orders GrvtRest._orders].
    rewrite dict_keys_set, existsb_keys.
    destruct (dict_get _ _); [now rewrite app_nil_r|reflexivity].
  - rewrite app_nil_r.
    apply (exec_keeps
             (fun r r' =>
                dict_keys (GrvtRest._orders r') = dict_keys (GrvtRest._orders r))
             (fun _ => False)).
    + reflexivity.
    + intros r1 r2 r3 H1 H2. now rewrite H2.
    + intros ts symbol oid cid r.
      destruct (rest_cancel_cases ts symbol oid cid r) as [E|(k & e & G & E)];
        rewrite E; [reflexivity|]. simpl.
      apply dict_keys_set_present. eapply dict_get_Some_key; eassumption.
    + intros now_ms utcnow symbol side price size cid r [].
    + intros k. congruence.
Qed.

Lemma exec_all_keys ops :
  forall a,
    dict_keys (GrvtRest._orders (GrvtAdapter.rest (GrvtAdapter.exec_all ops a)))
    = dict_keys (GrvtRest._orders (GrvtAdapter.rest a))
      ++ ids_added (dict_keys (GrvtRest._orders (GrvtAdapter.rest a))) ops.
Proof.
  induction ops as [|op more IH]; intros a.
  - simpl. now rewrite app_nil_r.
  - change (GrvtAdapter.exec_all (op :: more) a)
      with (GrvtAdapter.exec_all more (GrvtAdapter.exec op a)).
    rewrite IH, exec_keys.
    rewrite (ids_added_cons
               (dict_keys (GrvtRest._orders (GrvtAdapter.rest a))) op more).
    symmetry. apply app_assoc.
Qed.

(** X6. Orders are never deleted.  On a ledger kept by the adapter, after
    any sequence of placements, cancellations and cancel-alls the history
    lists the ids it listed before, in the same order, followed by the ids
    of the accepted placements made since, in the order they were first
    placed; so every accepted placement is in the history.  [since] and
    [limit] make no difference. *)
Theorem order_history_only_grows :
  forall ops a since limit since' limit',
    ledger_ok (GrvtRest._orders (GrvtAdapter.rest a)) ->
    let before :=
      map OrderData.id (GrvtAdapter.get_order_history None since limit a) in
    let after :=
      map OrderData.id
        (GrvtAdapter.get_order_history None since' limit'
           (GrvtAdapter.exec_all ops a)) in
    after = before ++ ids_added before ops
    /\ forall op k,
         In op ops -> GrvtAdapter.placed_id op = Some k -> In k after.
Proof.
  intros ops a since limit since' limit' OK before after. subst before after.
  rewrite !history_ids, !ledger_ok_value_ids;
    [|assumption|now apply exec_all_ledger_ok].
  split; [apply exec_all_keys|].
  intros op k I P. rewrite exec_all_keys. now apply (ids_added_covers _ ops op).
Qed.

Lemma order_history_only_grows_witness :
  map OrderData.id
    (GrvtAdapter.get_order_history None (Some 1700000000001500%Z) (Some 1%Z)
       (GrvtAdapter.exec_all
          [ GrvtAdapter.CancelAll (fun _ => 1700000000003000%Z) None;
            GrvtAdapter.Place 1700000000004 1700000000004000%Z "BTC-PERP"
              BUY LIMIT 1 (Some 50000%Q) None;
            GrvtAdapter.Place 1700000000005 1700000000005000%Z "BTC-PERP"
              BUY LIMIT 1 (Some 50000%Q) (with_client_order_id "a") ]
          after_session))
  = ["a"; "grvt_1700000000001"; "grvt_1700000000004"].
Proof.
  destruct (order_history_only_grows
              [ GrvtAdapter.CancelAll (fun _ => 1700000000003000%Z) None;
                GrvtAdapter.Place 1700000000004 1700000000004000%Z "BTC-PERP"
                  BUY LIMIT 1 (Some 50000%Q) None;
                GrvtAdapter.Place 1700000000005 1700000000005000%Z "BTC-PERP"
                  BUY LIMIT 1 (Some 50000%Q) (with_client_order_id "a") ]
              after_session None None (Some 1700000000001500%Z) (Some 1%Z)
              after_session_ok) as [H _].
  rewrite H. reflexivity.
Defined.

Lemma filter_map_swap {A B} (f : A -> B) (p : B -> bool) (l : list A) :
  filter p (map f l) = map f (filter (fun x => p (f x)) l).
Proof.
  induction l as [|x r IH]; simpl; [reflexivity|].
  destruct (p (f x)); simpl; now rewrite IH.
Qed.

Lemma filter_filter {A} (p q : A -> bool) (l : list A) :
  filter p (filter q l) = filter (fun x => p x && q x) l.
Proof.
  induction l as [|x r IH]; simpl; [reflexivity|].
  destruct (q x); simpl.
  - rewrite andb_true_r. destruct (p x); now rewrite IH.
  - now rewrite andb_false_r.
Qed.

(** X7. The open orders are the OPEN part of the history: for every symbol
    filter, [get_open_orders(symbol)] returns the orders of
    [get_order_history(symbol)] whose status is OPEN, in the same order. *)
Theorem open_orders_are_open_history :
  forall symbol since limit a,
    GrvtAdapter.get_open_orders symbol a
    = (inr (filter (fun o => OrderStatus_eqb (OrderData.status o) OPEN)
              (GrvtAdapter.get_order_history symbol since limit a)),
       a).
Proof.
  intros symbol since limit a. rewrite get_open_orders_run.
  unfold GrvtAdapter.get_order_history, open_entries.
  rewrite filter_map_swap, filter_filter.
  rewrite (filter_ext (GrvtRest.is_open_for symbol)
             (fun x =>
                OrderStatus_eqb (OrderData.status (GrvtRest._to_order_data x))
                  OPEN && GrvtAdapter.in_history symbol x));
    [reflexivity|].
  intros e.
  unfold GrvtRest.is_open_for, GrvtAdapter.in_history. simpl.
  destruct (OrderStatus_eqb (Entry.status e) OPEN); [|reflexivity].
  destruct symbol as [[|c s]|]; simpl; try reflexivity.
  now rewrite negb_involutive.
Qed.

(** ** Placing: what is rejected and what is recorded *)

(** X9. Whatever limit-family type is requested (LIMIT, POST_ONLY, FOK or
    IOC), the order is recorded and returned with type LIMIT; symbol, side
    and amount are the ones given, the client id is the one found in
    [params], and the id is never empty. *)
Theorem accepted_order_is_recorded_as_limit :
  forall now_ms utcnow symbol side order_type amount price params a o a',
    GrvtAdapter.create_order now_ms utcnow symbol side order_type amount price
      params a = (inr o, a') ->
    OrderData.type o = LIMIT
    /\ OrderData.symbol o = symbol
    /\ OrderData.side o = side
    /\ OrderData.amount o = amount
    /\ OrderData.client_id o = GrvtAdapter.params_client_order_id params
    /\ OrderData.id o <> ""
    /\ OrderData.timestamp o = utcnow
    /\ OrderData.updated o = Some utcnow.
Proof.
  intros now_ms utcnow symbol side order_type amount price params a o a' R.
  destruct (GrvtAdapter.limit_family order_type) eqn:L.
  - rewrite create_order_run in R by assumption. injection R as <- _.
    repeat split. apply order_id_for_nonempty.
  - rewrite create_order_raises in R by assumption. discriminate.
Qed.

Lemma accepted_order_is_recorded_as_limit_witness :
  exists o a',
    GrvtAdapter.create_order 1700000000004 1700000000004000%Z "BTC-PERP" SELL
      POST_ONLY 2 (Some 51000%Q) (with_client_order_id "c") after_session
    = (inr o, a')
    /\ OrderData.type o = LIMIT
    /\ OrderData.client_id o = Some "c".
Proof.
  eexists. eexists. split; [reflexivity|].
  destruct (accepted_order_is_recorded_as_limit 1700000000004
              1700000000004000%Z "BTC-PERP" SELL POST_ONLY 2 (Some 51000%Q)
              (with_client_order_id "c") after_session _ _ eq_refl)
    as (T & _ & _ & _ & C & _).
  split; [exact T|exact C].
Defined.

(** X10. The backend never fills an order.  In every state reached from the
    initial one, every order of the history has nothing filled, type LIMIT,
    and status OPEN or CANCELED; its remaining amount is its whole amount
    whenever that amount can be written with the 28 digits of the decimal
    context (a longer amount comes back rounded). *)
Theorem no_order_is_ever_filled :
  forall ops symbol since limit o,
    In o (GrvtAdapter.get_order_history symbol since limit
            (GrvtAdapter.exec_all ops GrvtAdapter.init)) ->
    OrderData.filled o = 0%Q
    /\ (fits_context (OrderData.amount o) ->
        OrderData.remaining o == OrderData.amount o)
    /\ OrderData.type o = LIMIT
    /\ (OrderData.status o = OPEN \/ OrderData.status o = CANCELED).
Proof.
  intros ops symbol since limit o I.
  assert (H : forall k e,
            In (k, e)
              (GrvtRest._orders
                 (GrvtAdapter.rest (GrvtAdapter.exec_all ops GrvtAdapter.init))) ->
            never_filled e).
  { apply (exec_all_keeps
             (fun r r' =>
                (forall k e, In (k, e) (GrvtRest._orders r) -> never_filled e) ->
                forall k e, In (k, e) (GrvtRest._orders r') -> never_filled e)
             (fun _ => True) (fun r H => H)).
    - intros r1 r2 r3 H1 H2 H0. apply H2. now apply H1.
    - intros ts sym oid cid r H0 k e.
      destruct (rest_cancel_cases ts sym oid cid r) as [E|(k0 & e0 & G & E)];
        rewrite E; [apply H0|]. simpl. intros Ik.
      apply In_dict_set in Ik. destruct Ik as [Ek|Ik]; [|eapply H0; eassumption].
      injection Ek as -> ->. apply dict_get_In in G.
      destruct (H0 _ _ G) as (F & T & _).
      unfold never_filled. simpl. tauto.
    - intros now_ms utcnow sym side price size cid r _ H0 k e.
      unfold GrvtRest.place_limit_order. simpl. intros Ik.
      apply In_dict_set in Ik. destruct Ik as [Ek|Ik]; [|eapply H0; eassumption].
      injection Ek as -> ->. unfold never_filled. simpl. tauto.
    - trivial.
    - intros k e []. }
  unfold GrvtAdapter.get_order_history in I. apply in_map_iff in I.
  destruct I as (e & <- & I). apply filter_In in I. destruct I as [I _].
  unfold dict_values in I. apply in_map_iff in I.
  destruct I as ([k e'] & E & I). simpl in E. subst e'.
  destruct (H k e I) as (F & T & S).
  cbn [GrvtRest._to_order_data OrderData.filled OrderData.remaining
       OrderData.amount OrderData.type OrderData.status].
  split; [exact F|]. split; [|split; assumption].
  intros Fit. unfold dec_sub. rewrite F.
  apply round_ctx_exact; [ring|exact Fit].
Qed.

Lemma no_order_is_ever_filled_witness :
  exists o,
    GrvtAdapter.get_order_history (Some "BTC-PERP") None None after_session
    = [o]
    /\ OrderData.filled o = 0%Q
    /\ OrderData.remaining o == OrderData.amount o
    /\ OrderData.type o = LIMIT
    /\ OrderData.status o = CANCELED.
Proof.
  eexists. split; [reflexivity|].
  match goal with
  | |- OrderData.filled ?o = _ /\ _ =>
      destruct (no_order_is_ever_filled session (Some "BTC-PERP") None None o)
        as (F & R & T & _)
  end.
  - left. reflexivity.
  - split; [exact F|]. split; [|split; [exact T|reflexivity]].
    apply R. exists 1%Z, 0%Z. split; reflexivity.
Defined.

(** ** Placing and cancelling, composed *)

Lemma dict_set_set {V} (k : string) (v w : V) (d : dict V) :
  dict_set k w (dict_set k v d) = dict_set k w d.
Proof.
  induction d as [|[k0 v0] r IH]; simpl.
  - now rewrite String.eqb_refl.
  - destruct (String.eqb k k0) eqn:E; simpl.
    + now rewrite String.eqb_refl.
    + now rewrite E, IH.
Qed.

(** X11. On a ledger kept by the adapter, placing an order under an id that
    is not yet in the ledger and then cancelling it by the returned id
    succeeds, gives status CANCELED, and leaves the open orders (of every
    symbol filter) exactly as they were before the placement. *)
Theorem place_then_cancel_restores_open_orders :
  forall now_ms utcnow symbol side order_type amount price params ts symbol'
         filter_symbol a,
    ledger_ok (GrvtRest._orders (GrvtAdapter.rest a)) ->
    GrvtAdapter.limit_family order_type = true ->
    dict_get
      (GrvtRest.order_id_for now_ms (GrvtAdapter.params_client_order_id params))
      (GrvtRest._orders (GrvtAdapter.rest a)) = None ->
    exists o a1 o' a2,
      GrvtAdapter.create_order now_ms utcnow symbol side order_type amount
        price params a = (inr o, a1)
      /\ GrvtAdapter.cancel_order ts (OrderData.id o) symbol' a1 = (inr o', a2)
      /\ OrderData.id o' = OrderData.id o
      /\ OrderData.status o' = CANCELED
      /\ fst (GrvtAdapter.get_open_orders filter_symbol a2)
         = fst (GrvtAdapter.get_open_orders filter_symbol a).
Proof.
  intros now_ms utcnow symbol side order_type amount price params ts symbol'
    filter_symbol a OK L Fresh.
  eexists. eexists. eexists. eexists.
  split; [apply create_order_run; exact L|].
  split.
  - apply cancel_order_found.
    + apply order_id_for_nonempty.
    + cbn [GrvtAdapter.rest GrvtRest.with_orders GrvtRest._orders].
      apply dict_get_set_same.
  - split; [reflexivity|]. split; [reflexivity|].
    rewrite !get_open_orders_run. cbn [fst]. f_equal.
    unfold open_entries.
    cbn [GrvtAdapter.rest GrvtRest.with_orders GrvtRest._orders].
    change (OrderData.id (GrvtRest._to_order_data ?e)) with (Entry.id e).
    cbn [GrvtRest.new_entry Entry.id].
    rewrite dict_set_set, dict_set_fresh by assumption.
    unfold dict_values. rewrite map_app, filter_app. simpl.
    now rewrite app_nil_r.
Qed.

Lemma place_then_cancel_restores_open_orders_witness :
  exists o a1 o' a2,
    GrvtAdapter.create_order 1700000000004 1700000000004000%Z "ETH-PERP" BUY
      IOC 3 (Some 2900%Q) None after_session = (inr o, a1)
    /\ GrvtAdapter.cancel_order 1700000000005000%Z (OrderData.id o) "ETH-PERP"
         a1 = (inr o', a2)
    /\ OrderData.id o' = OrderData.id o
    /\ OrderData.status o' = CANCELED
    /\ fst (GrvtAdapter.get_open_orders (Some "ETH-PERP") a2)
       = fst (GrvtAdapter.get_open_orders (Some "ETH-PERP") after_session).
Proof.
  apply (place_then_cancel_restores_open_orders 1700000000004
           1700000000004000%Z "ETH-PERP" BUY IOC 3 (Some 2900%Q) None
           1700000000005000%Z "ETH-PERP" (Some "ETH-PERP") after_session
           after_session_ok); reflexivity.
Defined.

(** X12. The ledger's own [cancel_order] picks its target as
    [order_id or client_order_id].  With neither given (absent or empty) it
    returns nothing and changes nothing.  An order placed under a non-empty
    client id is cancelled by that client id alone, whatever symbol is
    passed. *)
Theorem rest_cancel_order_by_client_id :
  forall now_ms utcnow symbol side price size cid ts symbol' r,
    (forall oid coid,
       str_truthy oid = false -> str_truthy coid = false ->
       GrvtRest.cancel_order ts symbol' oid coid r = (None, r))
    /\ (cid <> "" ->
        exists o r1 o' r2,
          GrvtRest.place_limit_order now_ms utcnow symbol side price size
            (Some cid) r = (o, r1)
          /\ GrvtRest.cancel_order ts symbol' None (Some cid) r1 = (Some o', r2)
          /\ OrderData.id o' = cid
          /\ OrderData.client_id o' = Some cid
          /\ OrderData.status o' = CANCELED
          /\ OrderData.updated o' = Some ts
          /\ OrderData.timestamp o' = utcnow).
Proof.
  intros now_ms utcnow symbol side price size cid ts symbol' r. split.
  - intros oid coid To Tc. unfold GrvtRest.cancel_order, opt_str_or.
    rewrite To. destruct coid as [[|c s]|]; try reflexivity. discriminate.
  - intros N. destruct cid as [|c s]; [congruence|].
    eexists. eexists. eexists. eexists. split; [reflexivity|].
    unfold GrvtRest.cancel_order, opt_str_or. simpl str_truthy. cbv iota.
    cbn [GrvtRest.with_orders GrvtRest._orders GrvtRest.order_id_for str_or].
    rewrite dict_get_set_same. split; [reflexivity|].
    repeat split.
Qed.

Lemma rest_cancel_order_by_client_id_witness :
  exists o r1 o' r2,
    GrvtRest.place_limit_order 1700000000000 1700000000000000%Z "BTC-PERP" BUY
      50000 1 (Some "mine") GrvtRest.init = (o, r1)
    /\ GrvtRest.cancel_order 1700000000001000%Z "" None (Some "mine") r1
       = (Some o', r2)
    /\ OrderData.id o' = "mine"
    /\ OrderData.status o' = CANCELED.
Proof.
  destruct (rest_cancel_order_by_client_id 1700000000000 1700000000000000%Z
              "BTC-PERP" BUY 50000 1 "mine" 1700000000001000%Z ""
              GrvtRest.init) as [_ H].
  destruct H as (o & r1 & o' & r2 & P & C & I & _ & S & _); [discriminate|].
  exists o, r1, o', r2. tauto.
Defined.

(** ** Positions *)


(** X14. No trading operation touches the positions: after any sequence of
    placements, cancellations and cancel-alls every symbol has the side and
    size it had before, and from the initial state every symbol is LONG with
    size 0. *)
Theorem positions_never_change :
  forall ops symbol t0 t1,
    (forall a,
       let before := GrvtRest.get_position t0 symbol (GrvtAdapter.rest a) in
       let after :=
         GrvtRest.get_position t1 symbol
           (GrvtAdapter.rest (GrvtAdapter.exec_all ops a)) in
       PositionData.side after = PositionData.side before
       /\ PositionData.size after = PositionData.size before)
    /\ (let p :=
          GrvtRest.get_position t1 symbol
            (GrvtAdapter.rest (GrvtAdapter.exec_all ops GrvtAdapter.init)) in
        PositionData.side p = LONG /\ PositionData.size p == 0).
Proof.
  intros ops symbol t0 t1.
  assert (P : forall a,
            GrvtRest._position_size
              (GrvtAdapter.rest (GrvtAdapter.exec_all ops a))
            = GrvtRest._position_size (GrvtAdapter.rest a)).
  { intros a.
    apply (exec_all_keeps
             (fun r r' => GrvtRest._position_size r' = GrvtRest._position_size r)
             (fun _ => True)).
    - reflexivity.
    - intros r1 r2 r3 H1 H2. now rewrite H2.
    - intros ts sym oid cid r.
      destruct (rest_cancel_cases ts sym oid cid r) as [E|(k & e & _ & E)];
        now rewrite E.
    - reflexivity.
    - trivial. }
  split.
  - intros a. cbn zeta. unfold GrvtRest.get_position. rewrite P.
    split; reflexivity.
  - cbn zeta. unfold GrvtRest.get_position. rewrite P. simpl.
    split; reflexivity.
Qed.

Lemma positions_of_symbols utcnow symbols r :
  map PositionData.symbol (GrvtAdapter.positions_of utcnow symbols r) = symbols.
Proof.
  revert utcnow. induction symbols as [|s more IH]; intros utcnow; simpl.
  - reflexivity.
  - now rewrite IH.
Qed.

(** X15. [get_positions] returns one position per requested symbol, in the
    order requested.  When no symbol is requested (absent or empty list) it
    falls back to the configured symbol, and returns the empty list when
    there is none. *)
Theorem get_positions_one_per_symbol :
  forall config_symbol utcnow symbols a,
    map PositionData.symbol
      (GrvtAdapter.get_positions config_symbol utcnow symbols a)
    = match symbols with
      | Some (s :: more) => s :: more
      | _ =>
          match config_symbol with
          | Some s => [s]
          | None => []
          end
      end.
Proof.
  intros config_symbol utcnow symbols a. unfold GrvtAdapter.get_positions.
  rewrite positions_of_symbols.
  destruct symbols as [[|s more]|]; destruct config_symbol; reflexivity.
Qed.


(** ** The event channel *)

Section Channel.
Context {Event : Type}.
Local Open Scope nat_scope.
Implicit Types (ws : GrvtWebSocket.t Event) (ev data : Event).

Lemma emit_all_connected (events : list Event) ws :
  GrvtWebSocket._connected ws = true ->
  emit_all events ws
  = GrvtWebSocket.mk (GrvtWebSocket._callbacks ws) true
      (GrvtWebSocket._queue ws ++ events) (GrvtWebSocket._consumer_task ws)
      (GrvtWebSocket.invoked ws) (GrvtWebSocket.logged ws).
Proof.
  revert ws. induction events as [|ev more IH]; intros ws C.
  - simpl. rewrite app_nil_r. destruct ws; simpl in *. now subst.
  - change (emit_all (ev :: more) ws)
      with (emit_all more (GrvtWebSocket.send_user_event ev ws)).
    rewrite IH.
    + unfold GrvtWebSocket.send_user_event. rewrite C. simpl.
      now rewrite <- app_assoc.
    + unfold GrvtWebSocket.send_user_event. now rewrite C.
Qed.

Lemma send_user_event_idle ev ws :
  idle ws ->
  GrvtWebSocket.send_user_event ev ws
  = GrvtWebSocket.mk (GrvtWebSocket._callbacks ws) true [ev]
      (Some GrvtWebSocket.Waiting) (GrvtWebSocket.invoked ws)
      (GrvtWebSocket.logged ws).
Proof.
  intros [Q [[C T]|[C T]]]; destruct ws as [cbs con q task inv lg];
    simpl in Q, C, T; subst; reflexivity.
Qed.

Lemma emit_all_idle (events : list Event) ws :
  idle ws ->
  events <> [] ->
  emit_all events ws
  = GrvtWebSocket.mk (GrvtWebSocket._callbacks ws) true events
      (Some GrvtWebSocket.Waiting) (GrvtWebSocket.invoked ws)
      (GrvtWebSocket.logged ws).
Proof.
  intros I N. destruct events as [|ev more]; [congruence|].
  change (emit_all (ev :: more) ws)
    with (emit_all more (GrvtWebSocket.send_user_event ev ws)).
  rewrite send_user_event_idle by assumption.
  now rewrite emit_all_connected.
Qed.

Lemma emit_all_then_drain ws (events : list Event) :
  idle ws ->
  exists ws2,
    GrvtWebSocket.run_consumer
      (List.length events * (List.length (GrvtWebSocket._callbacks ws) + 2))
      (emit_all events ws)
    = Some ws2
    /\ GrvtWebSocket.invoked ws2
       = GrvtWebSocket.invoked ws
         ++ flat_map (GrvtWebSocket.fan_out (GrvtWebSocket._callbacks ws)) events
    /\ GrvtWebSocket._queue ws2 = []
    /\ GrvtWebSocket._callbacks ws2 = GrvtWebSocket._callbacks ws.
Proof.
  intros I. destruct events as [|ev more].
  - exists ws. simpl. rewrite app_nil_r. destruct I as [Q _]. tauto.
  - rewrite emit_all_idle by (assumption || discriminate).
    eexists. split; [apply run_drain|]. simpl. tauto.
Qed.

(** X16. Events are delivered in the order they were emitted.  On a socket
    at rest (connected or not), after any number of emissions the consumer
    delivers the first event to every subscriber, then the second, and so
    on, and leaves the queue empty. *)
Theorem events_delivered_in_emission_order :
  forall ws (events : list Event),
    idle ws ->
    let cbs := GrvtWebSocket._callbacks ws in
    exists ws2,
      GrvtWebSocket.run_consumer
        (List.length events * (List.length cbs + 2)) (emit_all events ws)
      = Some ws2
      /\ GrvtWebSocket.invoked ws2
         = GrvtWebSocket.invoked ws
           ++ flat_map (GrvtWebSocket.fan_out cbs) events
      /\ GrvtWebSocket._queue ws2 = []
      /\ GrvtWebSocket._callbacks ws2 = cbs.
Proof.
  intros ws events I cbs. subst cbs. now apply emit_all_then_drain.
Qed.

(** X17. [connect] is idempotent, and on a socket that is connected with a
    live consumer it changes nothing: no second consumer is started.  It
    never touches the queue or the subscribers. *)
Theorem connect_is_idempotent :
  forall ws,
    GrvtWebSocket.connect (GrvtWebSocket.connect ws) = GrvtWebSocket.connect ws
    /\ GrvtWebSocket._queue (GrvtWebSocket.connect ws) = GrvtWebSocket._queue ws
    /\ GrvtWebSocket._callbacks (GrvtWebSocket.connect ws)
       = GrvtWebSocket._callbacks ws
    /\ (forall k,
          GrvtWebSocket._connected ws = true ->
          GrvtWebSocket._consumer_task ws = Some k ->
          GrvtWebSocket.done k = false ->
          GrvtWebSocket.connect ws = ws).
Proof.
  intros ws. destruct ws as [cbs con q task inv lg].
  unfold GrvtWebSocket.connect. simpl. split; [|split; [|split]];
    try reflexivity.
  - destruct task as [[| | |]|]; reflexivity.
  - intros k -> -> D. now rewrite D.
Qed.

(** X18. [disconnect] does not empty the queue.  Whatever the socket was
    doing, after [disconnect] and a later [connect] the consumer delivers
    every event that was queued at the time of the disconnection, in order,
    to the subscribers. *)
Theorem queued_events_survive_reconnect :
  forall ws,
    let ws' := GrvtWebSocket.connect (GrvtWebSocket.disconnect ws) in
    let cbs := GrvtWebSocket._callbacks ws in
    GrvtWebSocket._queue (GrvtWebSocket.disconnect ws) = GrvtWebSocket._queue ws
    /\ exists ws2,
         GrvtWebSocket.run_consumer
           (List.length (GrvtWebSocket._queue ws) * (List.length cbs + 2)) ws'
         = Some ws2
         /\ GrvtWebSocket.invoked ws2
            = GrvtWebSocket.invoked ws
              ++ flat_map (GrvtWebSocket.fan_out cbs) (GrvtWebSocket._queue ws)
         /\ GrvtWebSocket._queue ws2 = [].
Proof.
  intros ws ws' cbs. subst ws' cbs. split; [reflexivity|].
  destruct ws as [cbs con q task inv lg].
  unfold GrvtWebSocket.connect, GrvtWebSocket.disconnect. simpl.
  eexists. split; [apply run_drain|]. simpl. tauto.
Qed.

(** X19. The consumer works on a copy of the subscriber list taken when it
    takes the event.  If a subscriber is added, or all subscribers are
    removed, while an event is being delivered, that event still goes to
    exactly the subscribers registered when it was taken. *)
Theorem delivery_uses_subscribers_at_pop :
  forall ws data q cb,
    GrvtWebSocket._connected ws = true ->
    GrvtWebSocket._consumer_task ws = Some GrvtWebSocket.Waiting ->
    GrvtWebSocket._queue ws = data :: q ->
    let cbs := GrvtWebSocket._callbacks ws in
    exists ws1,
      GrvtWebSocket.consume_step ws = Some ws1
      /\ (exists ws2,
            GrvtWebSocket.run_consumer (List.length cbs + 1)
              (GrvtWebSocket.subscribe_user_stream cb ws1) = Some ws2
            /\ GrvtWebSocket.invoked ws2
               = GrvtWebSocket.invoked ws ++ GrvtWebSocket.fan_out cbs data
            /\ GrvtWebSocket._callbacks ws2 = cbs ++ [cb])
      /\ (exists ws2,
            GrvtWebSocket.run_consumer (List.length cbs + 1)
              (GrvtWebSocket.clear_callbacks ws1) = Some ws2
            /\ GrvtWebSocket.invoked ws2
               = GrvtWebSocket.invoked ws ++ GrvtWebSocket.fan_out cbs data
            /\ GrvtWebSocket._callbacks ws2 = []).
Proof.
  intros ws data q cb C T Q cbs. subst cbs.
  destruct ws as [cbs con q0 task inv lg]. simpl in C, T, Q. subst.
  eexists. split; [reflexivity|]. split.
  - eexists. split; [apply run_pending|]. split; reflexivity.
  - eexists. split; [apply run_pending|]. split; reflexivity.
Qed.
End Channel.

Lemma events_delivered_in_emission_order_witness :
  exists ws2,
    GrvtWebSocket.run_consumer 8
      (emit_all ["E1"; "E2"]
         (GrvtWebSocket.subscribe_all [subscriber_A; subscriber_B]
            GrvtWebSocket.init))
    = Some ws2
    /\ GrvtWebSocket.invoked ws2
       = [(1%nat, "E1", Returned); (2%nat, "E1", Raised);
          (1%nat, "E2", Returned); (2%nat, "E2", Raised)].
Proof.
  destruct (events_delivered_in_emission_order
              (GrvtWebSocket.subscribe_all [subscriber_A; subscriber_B]
                 GrvtWebSocket.init) ["E1"; "E2"]) as (ws2 & R & I & _).
  - split; [reflexivity|]. right. split; reflexivity.
  - exists ws2. split; assumption.
Defined.

Lemma connect_is_idempotent_witness :
  GrvtWebSocket.connect
    (GrvtWebSocket.send_user_event "E" (@GrvtWebSocket.init string))
  = GrvtWebSocket.send_user_event "E" GrvtWebSocket.init.
Proof.
  destruct (connect_is_idempotent
              (GrvtWebSocket.send_user_event "E" (@GrvtWebSocket.init string)))
    as (_ & _ & _ & H).
  apply (H GrvtWebSocket.Waiting); reflexivity.
Defined.

Lemma delivery_uses_subscribers_at_pop_witness :
  exists ws1 ws2,
    GrvtWebSocket.consume_step
      (GrvtWebSocket.send_user_event "E"
         (GrvtWebSocket.subscribe_all [subscriber_A; subscriber_B]
            GrvtWebSocket.init)) = Some ws1
    /\ GrvtWebSocket.run_consumer 3 (GrvtWebSocket.clear_callbacks ws1)
       = Some ws2
    /\ GrvtWebSocket.invoked ws2
       = [(1%nat, "E", Returned); (2%nat, "E", Raised)]
    /\ GrvtWebSocket._callbacks ws2 = [].
Proof.
  destruct (delivery_uses_subscribers_at_pop
              (GrvtWebSocket.send_user_event "E"
                 (GrvtWebSocket.subscribe_all [subscriber_A; subscriber_B]
                    GrvtWebSocket.init)) "E" [] subscriber_C)
    as (ws1 & S & _ & ws2 & R & I & K); try reflexivity.
  exists ws1, ws2. tauto.
Defined.

(** ** Subscriptions through the adapter *)

(** X20. [unsubscribe] drops every subscriber, not one: both callback lists
    are empty afterwards, whoever had subscribed.  An order event emitted
    after it on a socket at rest is taken from the queue by the consumer and
    reaches nobody. *)
Theorem unsubscribe_drops_every_subscriber :
  forall a (order : OrderData.t),
    let a' := GrvtAdapter.unsubscribe a in
    GrvtAdapter._order_callbacks a' = []
    /\ GrvtWebSocket._callbacks (GrvtAdapter.websocket a') = []
    /\ GrvtAdapter.rest a' = GrvtAdapter.rest a
    /\ (idle (GrvtAdapter.websocket a) ->
        exists a2 ws2,
          GrvtAdapter._emit_user_event order a' = (inr tt, a2)
          /\ GrvtWebSocket.run_consumer 2 (GrvtAdapter.websocket a2) = Some ws2
          /\ GrvtWebSocket.invoked ws2
             = GrvtWebSocket.invoked (GrvtAdapter.websocket a)
          /\ GrvtWebSocket._queue ws2 = []).
Proof.
  intros a order a'. subst a'.
  split; [reflexivity|]. split; [reflexivity|]. split; [reflexivity|].
  intros I. eexists. eexists. split; [reflexivity|].
  cbn [GrvtAdapter.websocket GrvtAdapter.unsubscribe GrvtAdapter.rest
       GrvtAdapter._order_callbacks].
  rewrite send_user_event_idle.
  - split; [apply (run_head [] [] order)|]. simpl.
    rewrite app_nil_r. tauto.
  - destruct I as [Q S]. split; [exact Q|exact S].
Qed.

Lemma unsubscribe_drops_every_subscriber_witness :
  let a :=
    GrvtAdapter.subscribe_user_data
      (GrvtWebSocket.mkCallback 1%nat (fun _ => Returned))
      (GrvtAdapter.subscribe_user_data
         (GrvtWebSocket.mkCallback 2%nat (fun _ => Returned))
         GrvtAdapter.init) in
  List.length (GrvtAdapter._order_callbacks a) = 2%nat
  /\ GrvtAdapter._order_callbacks (GrvtAdapter.unsubscribe a) = []
  /\ GrvtWebSocket._callbacks (GrvtAdapter.websocket (GrvtAdapter.unsubscribe a))
     = [].
Proof.
  cbn zeta. split; [reflexivity|].
  destruct (unsubscribe_drops_every_subscriber
              (GrvtAdapter.subscribe_user_data
                 (GrvtWebSocket.mkCallback 1%nat (fun _ => Returned))
                 (GrvtAdapter.subscribe_user_data
                    (GrvtWebSocket.mkCallback 2%nat (fun _ => Returned))
                    GrvtAdapter.init))
              (GrvtRest._to_order_data
                 (GrvtRest.new_entry 0 0%Z "BTC-PERP" BUY 1 1 None)))
    as (A & B & _).
  split; assumption.
Defined.

Lemma send_user_event_callbacks {Event} (ev : Event) ws :
  GrvtWebSocket._callbacks (GrvtWebSocket.send_user_event ev ws)
  = GrvtWebSocket._callbacks ws.
Proof.
  unfold GrvtWebSocket.send_user_event.
  destruct (GrvtWebSocket._connected ws); reflexivity.
Qed.

Lemma consume_step_callbacks {Event} (ws ws' : GrvtWebSocket.t Event) :
  GrvtWebSocket.consume_step ws = Some ws' ->
  GrvtWebSocket._callbacks ws' = GrvtWebSocket._callbacks ws.
Proof.
  unfold GrvtWebSocket.consume_step.
  destruct (GrvtWebSocket._consumer_task ws) as [[|data [|cb pending]| |]|];
    try discriminate.
  - destruct (GrvtWebSocket._connected ws).
    + destruct (GrvtWebSocket._queue ws); [discriminate|]. now intros [= <-].
    + now intros [= <-].
  - now intros [= <-].
  - destruct (GrvtWebSocket.cb_call cb data); now intros [= <-].
  - now intros [= <-].
Qed.

Lemma cancel_each_same_subscribers open_orders :
  forall utcnow a,
    same_subscribers a (snd (GrvtAdapter.cancel_each utcnow open_orders a)).
Proof.
  induction open_orders as [|order more IH]; intros utcnow a.
  - split; reflexivity.
  - cbn [GrvtAdapter.cancel_each].
    unfold GrvtAdapter.bind at 1. unfold GrvtAdapter.in_rest at 1.
    destruct (GrvtRest.cancel_order (utcnow O) (OrderData.symbol order)
                (Some (OrderData.id order)) None (GrvtAdapter.rest a))
      as [[u|] r'].
    + unfold GrvtAdapter.bind at 1.
      unfold GrvtAdapter._emit_user_event, GrvtAdapter.in_websocket.
      unfold GrvtAdapter.bind at 1.
      match goal with
      | |- context [GrvtAdapter.cancel_each ?c more ?s] =>
          destruct (IH c s) as [K1 K2];
          destruct (GrvtAdapter.cancel_each c more s) as [[err|res] a2]
      end; cbn [snd] in K1, K2; simpl;
        (split; [exact K1|rewrite K2; apply send_user_event_callbacks]).
    + destruct (IH (fun i => utcnow (S i))
                  (GrvtAdapter.mk r' (GrvtAdapter.websocket a)
                     (GrvtAdapter._order_callbacks a))) as [K1 K2].
      split; assumption.
Qed.

Lemma exec_same_subscribers op a : same_subscribers a (GrvtAdapter.exec op a).
Proof.
  unfold GrvtAdapter.exec.
  destruct op as [now_ms utcnow symbol side order_type amount price params
                 |utcnow order_id symbol|utcnow symbol];
    cbn [GrvtAdapter.run]; unfold GrvtAdapter.bind.
  - destruct (GrvtAdapter.limit_family order_type) eqn:L.
    + rewrite create_order_run by assumption.
      split; cbn [snd GrvtAdapter.websocket GrvtAdapter._order_callbacks];
        [reflexivity|apply send_user_event_callbacks].
    + rewrite create_order_raises by assumption. split; reflexivity.
  - unfold GrvtAdapter.cancel_order, GrvtAdapter.bind, GrvtAdapter.in_rest.
    destruct (GrvtRest.cancel_order utcnow symbol (Some order_id) None
                (GrvtAdapter.rest a)) as [[u|] r'];
      split; try reflexivity.
    apply (send_user_event_callbacks u).
  - unfold GrvtAdapter.cancel_all_orders, GrvtAdapter.bind,
      GrvtAdapter.in_rest.
    rewrite adapter_eta. apply cancel_each_same_subscribers.
Qed.

(** X21. The adapter's own list of order callbacks and the socket's
    subscriber list never drift apart: when they are equal (as they are
    initially), they are equal after any sequence of trading operations,
    subscriptions, unsubscriptions and consumer steps. *)
Theorem subscriber_lists_stay_equal :
  forall acts a,
    GrvtAdapter._order_callbacks a
    = GrvtWebSocket._callbacks (GrvtAdapter.websocket a) ->
    GrvtAdapter._order_callbacks (GrvtAdapter.perform_all acts a)
    = GrvtWebSocket._callbacks
        (GrvtAdapter.websocket (GrvtAdapter.perform_all acts a)).
Proof.
  induction acts as [|act more IH]; intros a E; simpl; [assumption|].
  apply IH. destruct act as [op|cb| |]; simpl.
  - destruct (exec_same_subscribers op a) as [K1 K2]. congruence.
  - now rewrite E.
  - reflexivity.
  - destruct (GrvtWebSocket.consume_step (GrvtAdapter.websocket a)) as [ws|]
      eqn:S; [|assumption].
    simpl. apply consume_step_callbacks in S. congruence.
Qed.

Lemma subscriber_lists_stay_equal_witness :
  GrvtAdapter._order_callbacks
    (GrvtAdapter.perform_all
       [ GrvtAdapter.Subscribe
           (GrvtWebSocket.mkCallback 1%nat (fun _ => Returned));
         GrvtAdapter.Trade
           (GrvtAdapter.Place 1700000000004 1700000000004000%Z "BTC-PERP" BUY
              LIMIT 1 (Some 50000%Q) None);
         GrvtAdapter.Deliver; GrvtAdapter.Deliver;
         GrvtAdapter.Unsubscribe;
         GrvtAdapter.Subscribe
           (GrvtWebSocket.mkCallback 2%nat (fun _ => Raised)) ]
       after_session)
  = GrvtWebSocket._callbacks
      (GrvtAdapter.websocket
         (GrvtAdapter.perform_all
            [ GrvtAdapter.Subscribe
                (GrvtWebSocket.mkCallback 1%nat (fun _ => Returned));
              GrvtAdapter.Trade
                (GrvtAdapter.Place 1700000000004 1700000000004000%Z "BTC-PERP"
                   BUY LIMIT 1 (Some 50000%Q) None);
              GrvtAdapter.Deliver; GrvtAdapter.Deliver;
              GrvtAdapter.Unsubscribe;
              GrvtAdapter.Subscribe
                (GrvtWebSocket.mkCallback 2%nat (fun _ => Raised)) ]
            after_session)).
Proof.
  apply (subscriber_lists_stay_equal _ after_session). reflexivity.
Defined.

(** ** From a trading operation to the subscribers *)

Lemma run_emits op a :
  ledger_ok (GrvtRest._orders (GrvtAdapter.rest a)) ->
  GrvtAdapter.websocket (snd (GrvtAdapter.run op a))
  = emit_all (reply_orders (fst (GrvtAdapter.run op a)))
      (GrvtAdapter.websocket a).
Proof.
  intros OK.
  destruct op as [now_ms utcnow symbol side order_type amount price params
                 |utcnow order_id symbol|utcnow symbol];
    cbn [GrvtAdapter.run]; unfold GrvtAdapter.bind.
  - destruct (GrvtAdapter.limit_family order_type) eqn:L.
    + now rewrite create_order_run.
    + now rewrite create_order_raises.
  - destruct (dict_get order_id (GrvtRest._orders (GrvtAdapter.rest a)))
      as [e|] eqn:G.
    + destruct (ledger_ok_get _ _ _ OK G) as [N I].
      now rewrite (cancel_order_found utcnow order_id symbol e).
    + now rewrite cancel_order_missing.
  - now rewrite cancel_all_orders_run.
Qed.

(** X22. End to end.  On a ledger kept by the adapter and a socket at rest
    (even one that was never connected), after a trading operation the
    consumer calls every subscriber with every order record the operation
    returned, record after record in the order returned, and with nothing
    else; an operation that raises notifies nobody. *)
Theorem operation_notifies_subscribers :
  forall op a,
    ledger_ok (GrvtRest._orders (GrvtAdapter.rest a)) ->
    idle (GrvtAdapter.websocket a) ->
    let cbs := GrvtWebSocket._callbacks (GrvtAdapter.websocket a) in
    exists reply a' ws2,
      GrvtAdapter.run op a = (reply, a')
      /\ GrvtWebSocket.run_consumer
           (List.length (reply_orders reply) * (List.length cbs + 2))%nat
           (GrvtAdapter.websocket a') = Some ws2
      /\ GrvtWebSocket.invoked ws2
         = GrvtWebSocket.invoked (GrvtAdapter.websocket a)
           ++ flat_map (GrvtWebSocket.fan_out cbs) (reply_orders reply)
      /\ GrvtWebSocket._queue ws2 = [].
Proof.
  intros op a OK I cbs. subst cbs.
  pose proof (run_emits op a OK) as W.
  destruct (GrvtAdapter.run op a) as [reply a'] eqn:R. simpl in W.
  destruct (emit_all_then_drain (GrvtAdapter.websocket a)
              (reply_orders reply) I) as (ws2 & D & V & Q & _).
  exists reply, a', ws2. rewrite W. tauto.
Qed.

Lemma operation_notifies_subscribers_witness :
  exists reply a' ws2,
    GrvtAdapter.run
      (GrvtAdapter.Place 1700000000000 1700000000000000%Z "BTC-PERP" BUY LIMIT
         1 (Some 50000%Q) None)
      (GrvtAdapter.subscribe_user_data
         (GrvtWebSocket.mkCallback 7%nat (fun _ => Returned)) GrvtAdapter.init)
    = (reply, a')
    /\ GrvtWebSocket.run_consumer 3 (GrvtAdapter.websocket a') = Some ws2
    /\ map (fun call => fst (fst call)) (GrvtWebSocket.invoked ws2) = [7%nat]
    /\ GrvtWebSocket._queue ws2 = [].
Proof.
  destruct (operation_notifies_subscribers
              (GrvtAdapter.Place 1700000000000 1700000000000000%Z "BTC-PERP"
                 BUY LIMIT 1 (Some 50000%Q) None)
              (GrvtAdapter.subscribe_user_data
                 (GrvtWebSocket.mkCallback 7%nat (fun _ => Returned))
                 GrvtAdapter.init))
    as (reply & a' & ws2 & R & D & V & Q).
  - apply ledger_ok_nil.
  - split; [reflexivity|]. right. split; reflexivity.
  - exists reply, a', ws2.
    split; [exact R|]. injection R as <- <-.
    split; [exact D|]. split; [|exact Q].
    rewrite V. reflexivity.
Defined.

(** ** Balances *)

(** X23. In every state reached from the initial one, [get_balances]
    returns exactly one balance: 100000 USDC free, nothing used, 100000 in
    total, stamped with the time of the call. *)
Theorem get_balances_reports_initial_funds :
  forall ops utcnow,
    GrvtAdapter.get_balances utcnow
      (GrvtAdapter.exec_all ops GrvtAdapter.init)
    = [BalanceData.mk "USDC" 100000 0 100000 100000 utcnow].
Proof.
  intros ops utcnow. unfold GrvtAdapter.get_balances, GrvtRest.get_balance.
  assert (B : GrvtRest._balance
                (GrvtAdapter.rest (GrvtAdapter.exec_all ops GrvtAdapter.init))
              = 100000%Q).
  { apply (exec_all_keeps
             (fun r r' => GrvtRest._balance r = 100000%Q ->
                          GrvtRest._balance r' = 100000%Q)
             (fun _ => True) (fun r H => H)).
    - intros r1 r2 r3 H1 H2 H0. apply H2. now apply H1.
    - intros ts sym oid cid r H0. now rewrite rest_cancel_balance.
    - intros now_ms t sym side price size cid r _ H0. exact H0.
    - trivial.
    - reflexivity. }
  now rewrite B.
Qed.
